(** * Foxbox client core: a shallow embedding of [app/js/lib/foxbox/foxbox.js]

    The development follows the source file function by function.  The
    first part holds the definitions (JavaScript values, then one module
    per component of the class [Foxbox]); the second part holds the
    properties proved about them. *)

From Stdlib Require Import List String Ascii ZArith NArith Bool Lia Permutation.
From Stdlib Require Import DecimalString.
Import ListNotations.
Local Open Scope string_scope.
Local Open Scope list_scope.
Local Set Warnings "-register-all".

(* ================================================================== *)
(** * Part I: definitions *)
(* ================================================================== *)

(** ** JavaScript values

    The data the code handles is JSON data (responses of the box, rows of
    the database) plus [undefined].  An object is the ordered list of its
    own enumerable properties; a nested object carries the reference that
    strict equality compares.  Numbers are the integral ones, with [NaN]
    kept apart because it is the one value not strictly equal to itself. *)
Module JS.

Inductive value : Type :=
| VUndefined
| VNull
| VBool (b : bool)
| VNumber (n : Z)
| VNaN
| VString (s : string)
| VObject (ref : nat) (props : list (string * value)).

(** Own enumerable properties, in enumeration order. *)
Definition object : Type := list (string * value).

Inductive exn : Type :=
| TypeError (message : string)
| Error (message : string).

(** Outcome of evaluating a piece of code that may throw. *)
Inductive completion (A : Type) : Type :=
| Normal (a : A)
| Throw (e : exn).
Arguments Normal {A} a.
Arguments Throw {A} e.

(** [a === b] *)
Definition strict_eq (a b : value) : bool :=
  match a, b with
  | VUndefined, VUndefined => true
  | VNull, VNull => true
  | VBool x, VBool y => Bool.eqb x y
  | VNumber x, VNumber y => Z.eqb x y
  | VString x, VString y => String.eqb x y
  | VObject r _, VObject r' _ => Nat.eqb r r'
  | _, _ => false
  end.

(** [!!a] *)
Definition truthy (a : value) : bool :=
  match a with
  | VUndefined | VNull | VNaN => false
  | VBool b => b
  | VNumber n => negb (Z.eqb n 0)
  | VString s => negb (String.eqb s "")
  | VObject _ _ => true
  end.

Definition keys (o : object) : list string := map fst o.

Fixpoint lookup (o : object) (k : string) : option value :=
  match o with
  | [] => None
  | (k', v) :: o' => if String.eqb k' k then Some v else lookup o' k
  end.

Definition has_own (o : object) (k : string) : bool :=
  match lookup o k with Some _ => true | None => false end.

(** [o.k] / [o[k]]: reading a missing property gives [undefined]. *)
Definition get (o : object) (k : string) : value :=
  match lookup o k with Some v => v | None => VUndefined end.

(** [o[k] = v]: an existing property keeps its place, a new one goes last. *)
Fixpoint set (o : object) (k : string) (v : value) : object :=
  match o with
  | [] => [(k, v)]
  | (k', v') :: o' =>
      if String.eqb k' k then (k', v) :: o' else (k', v') :: set o' k v
  end.

(** [Object.assign(target, source)]: every own enumerable property of
    [source] is written onto [target], in order; [target] is the object
    that is mutated and returned. *)
Definition assign (target source : object) : object :=
  fold_left (fun t kv => set t (fst kv) (snd kv)) source target.

(** A well-formed object has no repeated key. *)
Fixpoint mem_string (k : string) (l : list string) : bool :=
  match l with
  | [] => false
  | k' :: l' => String.eqb k' k || mem_string k l'
  end.

Fixpoint distinct (l : list string) : bool :=
  match l with
  | [] => true
  | k :: l' => negb (mem_string k l') && distinct l'
  end.

Definition wf_object (o : object) : bool := distinct (keys o).

(** The index keys ["0"], ["1"], ... of a string primitive. *)
Fixpoint index_props (i : nat) (cs : list ascii) : object :=
  match cs with
  | [] => []
  | c :: cs' =>
      (NilEmpty.string_of_uint (Nat.to_uint i), VString (String c EmptyString))
        :: index_props (S i) cs'
  end.

(** What [for (let prop in x)] walks through, with the values [x[prop]]
    reads: the properties of an object, the indices of a string, nothing
    for [undefined], [null], booleans and numbers. *)
Definition enumerable (x : value) : object :=
  match x with
  | VObject _ props => props
  | VString s => index_props 0 (list_ascii_of_string s)
  | _ => []
  end.

Definition in_non_object : string :=
  "Cannot use 'in' operator to search for a key in a non-object".

(** [prop in x]: a [TypeError] unless [x] is an object.  For JSON data the
    inherited properties of [Object.prototype] never change the outcome of
    the comparison that follows, so own properties are what is looked at. *)
Definition has_property (x : value) (prop : string) : completion bool :=
  match x with
  | VObject _ props => Normal (has_own props prop)
  | _ => Throw (TypeError in_non_object)
  end.

(** [x[prop]] for a property that [for ... in] or [in] has found. *)
Definition read (x : value) (prop : string) : value :=
  get (enumerable x) prop.

Definition is_object (x : value) : bool :=
  match x with VObject _ _ => true | _ => false end.

End JS.
Import JS.

(** ** [isSimilar] (foxbox.js, lines 36-44) *)
Module Similar.

(** The body of the [for ... in] loop over the remaining properties. *)
Fixpoint isSimilar_loop (props : list string) (objectA objectB : value)
  : completion bool :=
  match props with
  | [] => Normal true
  | prop :: rest =>
      match has_property objectB prop with
      | Throw e => Throw e
      | Normal false => Normal false
      | Normal true =>
          if strict_eq (read objectA prop) (read objectB prop)
          then isSimilar_loop rest objectA objectB
          else Normal false
      end
  end.

Definition isSimilar (objectA objectB : value) : completion bool :=
  isSimilar_loop (keys (enumerable objectA)) objectA objectB.

(** Subset-equality as the specification words it: for every key of [A],
    the same key exists in [B] with a strictly equal value. *)
Definition subset_equal (A B : value) : Prop :=
  forall k, In k (keys (enumerable A)) ->
    exists vb, lookup (enumerable B) k = Some vb /\
               is_object B = true /\
               strict_eq (read A k) vb = true.

(** One turn of the loop against an object [B], as a boolean. *)
Definition agrees (A B : object) (k : string) : bool :=
  match lookup B k with
  | Some vb => strict_eq (get A k) vb
  | None => false
  end.

(** [for ... in] finds nothing to walk through. *)
Definition keyless (x : value) : bool :=
  match enumerable x with [] => true | _ :: _ => false end.

End Similar.
Import Similar.

(** ** The state reconciler: [refreshServicesByPolling], [getServices]
    and the private [fetchServices] (foxbox.js, lines 266-335, 423-437) *)
Module Reconciler.

Inductive event : Type :=
| ServiceStateChange (service : object)
| ServiceChange (services : list object).

(** What one cycle reads and writes: the array [getServices()] resolved
    with, whose elements [Object.assign] mutates in place; the calls of
    [_dispatchEvent] and of [db.setService], oldest first.  Event delivery
    is synchronous, so an event holds the record as it is when dispatched. *)
Record world : Type := {
  stored : list object;
  dispatched : list event;
  db_setService : list object
}.

Definition dispatchEvent (e : event) (w : world) : world :=
  {| stored := stored w;
     dispatched := dispatched w ++ [e];
     db_setService := db_setService w |}.

Definition setService (service : object) (w : world) : world :=
  {| stored := stored w;
     dispatched := dispatched w;
     db_setService := db_setService w ++ [service] |}.

(** [s => s.id === fetchedService.id] *)
Definition same_id (fetchedService s : object) : bool :=
  strict_eq (get s "id") (get fetchedService "id").

(** The element [find] returned is the one [Object.assign] writes to. *)
Fixpoint mutate_found (p : object -> bool) (f : object -> object)
  (l : list object) : list object :=
  match l with
  | [] => []
  | s :: l' => if p s then f s :: l' else s :: mutate_found p f l'
  end.

Definition assign_stored (fetchedService : object) (w : world) : world :=
  {| stored := mutate_found (same_id fetchedService)
                 (fun storedService => assign storedService fetchedService)
                 (stored w);
     dispatched := dispatched w;
     db_setService := db_setService w |}.

(** The function given to [fetchedServices.reduce] (lines 289-310). *)
Definition reduce_callback (w : world) (hasNewServices : bool)
  (fetchedService : object) : world * completion bool :=
  match find (same_id fetchedService) (stored w) with
  | Some storedService =>
      (* isExistingService *)
      match isSimilar (get fetchedService "state")
                      (get storedService "state") with
      | Throw e => (w, Throw e)
      | Normal true => (w, Normal hasNewServices)
      | Normal false =>
          let merged := assign storedService fetchedService in
          (setService merged
             (dispatchEvent (ServiceStateChange merged)
                (assign_stored fetchedService w)),
           Normal (hasNewServices || negb true))
      end
  | None =>
      (setService fetchedService
         (dispatchEvent (ServiceStateChange fetchedService) w),
       Normal (hasNewServices || negb false))
  end.

Fixpoint reduce (w : world) (hasNewServices : bool)
  (fetchedServices : list object) : world * completion bool :=
  match fetchedServices with
  | [] => (w, Normal hasNewServices)
  | fetchedService :: rest =>
      match reduce_callback w hasNewServices fetchedService with
      | (w', Normal hasNewServices') => reduce w' hasNewServices' rest
      | (w', Throw e) => (w', Throw e)
      end
  end.

(** The [then] callback of lines 287-321, on the two resolved arrays. *)
Definition reconcile (storedServices fetchedServices : list object)
  : world * completion (list object) :=
  let w0 := {| stored := storedServices;
               dispatched := [];
               db_setService := [] |} in
  match reduce w0 false fetchedServices with
  | (w, Throw e) => (w, Throw e)
  | (w, Normal hasNewServices) =>
      if hasNewServices
         || negb (Nat.eqb (List.length fetchedServices)
                          (List.length storedServices))
      then (dispatchEvent (ServiceChange fetchedServices) w,
            Normal fetchedServices)
      else (w, Normal fetchedServices)
  end.

(** A row of the database; [getServices] keeps its [data]. *)
Record row : Type := { data : object }.

Definition getServices (rows : list row) : list object := map data rows.

(** The projection of lines 427-435, applied to the parsed response. *)
Definition fetchServices (services : list object) : list object :=
  map (fun service =>
         [ ("id", get service "id");
           ("type", get service "adapter");
           ("getters", get service "getters");
           ("setters", get service "setters");
           ("properties", get service "properties") ])
      services.

(** [get isLoggedIn()]: [!!settings.session] *)
Definition isLoggedIn (session : value) : bool := truthy session.

(** A whole cycle, given the session, the rows the database resolves with
    and the response the box resolves with.  Logged out, the cycle resolves
    at once with [undefined]. *)
Definition refreshServicesByPolling (session : value) (rows : list row)
  (response : list object) : world * completion (option (list object)) :=
  if negb (isLoggedIn session)
  then ({| stored := []; dispatched := []; db_setService := [] |}, Normal None)
  else
    match reconcile (getServices rows) (fetchServices response) with
    | (w, Normal fetchedServices) => (w, Normal (Some fetchedServices))
    | (w, Throw e) => (w, Throw e)
    end.

End Reconciler.
Import Reconciler.

(** ** The polling scheduler: [togglePolling] and [schedulePoll]
    (foxbox.js, lines 222-257) *)
Module Scheduler.

(** A handle of [setTimeout]: a positive number, hence truthy. *)
Definition timer : Type := nat.

(** The two private fields, and what the host holds for the instance: the
    timers armed and neither fired nor cleared, the next handle it gives
    out, the number of promises of [refreshServicesByPolling] still
    pending, and the lines of [console.error]. *)
Record state : Type := {
  isPollingEnabled : bool;
  nextPollTimeout : option timer;
  timers : list timer;
  next_timer : timer;
  cycles : nat;
  console : list string
}.

(** The instance after the constructor. *)
Definition init : state :=
  {| isPollingEnabled := false;
     nextPollTimeout := None;
     timers := [];
     next_timer := 1;
     cycles := 0;
     console := [] |}.

(** [this[p.nextPollTimeout] = setTimeout(...)] *)
Definition setTimeout (s : state) : state :=
  {| isPollingEnabled := isPollingEnabled s;
     nextPollTimeout := Some (next_timer s);
     timers := timers s ++ [next_timer s];
     next_timer := S (next_timer s);
     cycles := cycles s;
     console := console s |}.

(** [clearTimeout(handle)]: nothing happens for [null] or for a handle
    that is not armed any more. *)
Definition clearTimeout (handle : option timer) (armed : list timer)
  : list timer :=
  match handle with
  | Some t => filter (fun t' => negb (Nat.eqb t' t)) armed
  | None => armed
  end.

Definition schedulePoll (s : state) : state :=
  if negb (isPollingEnabled s)
     || match nextPollTimeout s with Some _ => true | None => false end
  then s
  else setTimeout s.

Definition togglePolling (pollingEnabled : bool) (s : state) : state :=
  let s :=
    {| isPollingEnabled := pollingEnabled;
       nextPollTimeout := nextPollTimeout s;
       timers := timers s;
       next_timer := next_timer s;
       cycles := cycles s;
       console := console s |} in
  if pollingEnabled
  then schedulePoll s
  else
    {| isPollingEnabled := isPollingEnabled s;
       nextPollTimeout := None;
       timers := clearTimeout (nextPollTimeout s) (timers s);
       next_timer := next_timer s;
       cycles := cycles s;
       console := console s |}.

(** The function given to [setTimeout], up to the call of
    [refreshServicesByPolling]: one more cycle is under way. *)
Definition timer_callback (s : state) : state :=
  {| isPollingEnabled := isPollingEnabled s;
     nextPollTimeout := nextPollTimeout s;
     timers := timers s;
     next_timer := next_timer s;
     cycles := S (cycles s);
     console := console s |}.

(** [.catch(e => console.error(...)).then(() => {...})] once the promise of
    the cycle settles: a rejection is logged, then in both cases the field
    is reset and [schedulePoll] is called. *)
Definition settle_callback (outcome : completion unit) (s : state) : state :=
  let logged :=
    match outcome with
    | Normal _ => console s
    | Throw _ =>
        console s ++ ["Polling has failed, scheduling one more attempt: "]
    end in
  schedulePoll
    {| isPollingEnabled := isPollingEnabled s;
       nextPollTimeout := None;
       timers := timers s;
       next_timer := next_timer s;
       cycles := cycles s;
       console := logged |}.

(** What can happen to the scheduler. *)
Inductive event : Type :=
| Toggle (pollingEnabled : bool)
| SchedulePoll
| TimerFires (t : timer)
| CycleSettles (outcome : completion unit).

(** A timer fires only while armed, a cycle settles only while pending. *)
Definition step (s : state) (e : event) : option state :=
  match e with
  | Toggle pollingEnabled => Some (togglePolling pollingEnabled s)
  | SchedulePoll => Some (schedulePoll s)
  | TimerFires t =>
      if existsb (Nat.eqb t) (timers s)
      then Some (timer_callback
                   {| isPollingEnabled := isPollingEnabled s;
                      nextPollTimeout := nextPollTimeout s;
                      timers := filter (fun t' => negb (Nat.eqb t' t))
                                  (timers s);
                      next_timer := next_timer s;
                      cycles := cycles s;
                      console := console s |})
      else None
  | CycleSettles outcome =>
      match cycles s with
      | O => None
      | S n =>
          Some (settle_callback outcome
                  {| isPollingEnabled := isPollingEnabled s;
                     nextPollTimeout := nextPollTimeout s;
                     timers := timers s;
                     next_timer := next_timer s;
                     cycles := n;
                     console := console s |})
      end
  end.

Fixpoint run (s : state) (es : list event) : option state :=
  match es with
  | [] => Some s
  | e :: es' =>
      match step s e with
      | Some s' => run s' es'
      | None => None
      end
  end.

(** Single flight: the field tracks the one armed timer or the one pending
    cycle, and nothing else is armed or pending. *)
Definition single_flight (s : state) : Prop :=
  match nextPollTimeout s with
  | None => timers s = [] /\ cycles s = 0
  | Some t => (timers s = [t] /\ cycles s = 0)
              \/ (timers s = [] /\ cycles s = 1)
  end.

(** Polling is not switched off while a cycle is pending. *)
Fixpoint no_disable_in_flight (s : state) (es : list event) : Prop :=
  match es with
  | [] => True
  | e :: es' =>
      (e = Toggle false -> cycles s = 0)
      /\ match step s e with
         | Some s' => no_disable_in_flight s' es'
         | None => True
         end
  end.

End Scheduler.

(** ** The session manager: [_initUserSession] and [isLoggedIn]
    (foxbox.js, lines 166-195) *)
Module Session.

(** [settings.session], [location.search] as the page was loaded with it,
    and the string assigned to [location.search], if any. *)
Record page : Type := {
  session : value;
  search : string;
  search_assigned : option string
}.

(** [s.substring(start, end)] for [start <= end] *)
Definition substring (s : string) (start finish : nat) : string :=
  String.substring start (finish - start) s.

(** [s.substring(start)] *)
Definition substring_from (s : string) (start : nat) : string :=
  String.substring start (String.length s - start) s.

(** [s.split(sep)] for a separator of one character *)
Fixpoint split (sep : ascii) (s : string) : list string :=
  match s with
  | EmptyString => [EmptyString]
  | String c s' =>
      if Ascii.eqb c sep
      then EmptyString :: split sep s'
      else match split sep s' with
           | [] => [String c EmptyString]
           | part :: parts => String c part :: parts
           end
  end.

(** [parts.join(sep)] *)
Definition join (sep : string) (parts : list string) : string :=
  String.concat sep parts.

(** [s.replace(/ /g, '+')] *)
Fixpoint replace_spaces (s : string) : string :=
  match s with
  | EmptyString => EmptyString
  | String c s' =>
      String (if Ascii.eqb c " "%char then "+"%char else c) (replace_spaces s')
  end.

Definition isLoggedIn (st : page) : bool := truthy (session st).

(** The test of lines 173-174 on one part of the query string. *)
Definition is_session_part (part : string) : bool :=
  String.eqb (substring part 0 (String.length "session_token="))
             "session_token".

Definition redirecting : exn :=
  Error "Redirecting to a URL without session".

(** The [for] loop of lines 172-188: [before] holds the parts already
    passed, so that [before ++ rest] is the array after [splice(i, 1)]. *)
Fixpoint scan (st : page) (before queryStringParts : list string)
  : page * completion unit :=
  match queryStringParts with
  | [] => (st, Normal tt)
  | part :: rest =>
      if is_session_part part
      then ({| session :=
                 VString (replace_spaces
                            (substring part 0
                               (String.length "session_token=")));
               search := search st;
               search_assigned := Some (join "&" (before ++ rest)) |},
            Throw redirecting)
      else scan st (before ++ [part]) rest
  end.

(** [Normal tt] stands for the resolved promise the function returns. *)
Definition _initUserSession (st : page) : page * completion unit :=
  if isLoggedIn st
  then (st, Normal tt)
  else scan st [] (split "&"%char (substring_from (search st) 1)).

End Session.

(** ** The box registry: the constructor, [_initDiscovery] and [selectBox]
    (foxbox.js, lines 47-62, 116-158) *)
Module Registry.

Record txt : Type := { name : string }.

(** A service the zeroconf plugin reports. *)
Record box : Type := {
  txtRecord : txt;
  port : N;
  addresses : list string
}.

(** An array together with whether [Object.freeze] was applied to it. *)
Record array (X : Type) : Type := { frozen : bool; items : list X }.
Arguments frozen {X} a.
Arguments items {X} a.

(** A call made to the [cordovaHTTP] plugin. *)
Inductive request : Type :=
| SetProxyHost (host : option string)
| SetProxyPort (p : N).

(** The two functions handed to the plugin at lines 153-157: the outer one
    closes over [box]; the inner one is
    [function() { this[p.settings].configured = true; }]. *)
Inductive callback : Type :=
| AfterProxyHost (b : box)
| AfterProxyPort.

(** What [this] is bound to when the plugin calls a function it was given:
    nothing (a plain call of a strict-mode function), [null], some object
    of the plugin, or the [Foxbox] instance.  Only the instance has the
    property keyed by the private symbol [p.settings]. *)
Inductive receiver : Type :=
| ThisUndefined
| ThisNull
| ThisOther
| ThisInstance.

(** The registry and the settings and plugin it drives.  A setting is
    [None] as long as the code has not written it. *)
Record foxbox : Type := {
  boxes : array box;
  configured : option bool;
  url : option string;
  ipaddrs : option (list string);
  requests : list request;
  callbacks : list callback;
  console_error : list string
}.

(** Line 54: [this[p.boxes] = Object.freeze([])]. *)
Definition constructor : foxbox :=
  {| boxes := {| frozen := true; items := [] |};
     configured := None;
     url := None;
     ipaddrs := None;
     requests := [];
     callbacks := [];
     console_error := [] |}.

Definition not_extensible : string :=
  "Cannot add property, object is not extensible".

(** [array.push(x)] *)
Definition push {X : Type} (x : X) (a : array X) : completion (array X) :=
  if frozen a
  then Throw (TypeError not_extensible)
  else Normal {| frozen := false; items := items a ++ [x] |}.

(** [`https://${box.txtRecord.name}:${box.port}`] *)
Definition origin (b : box) : string :=
  ("https://" ++ name (txtRecord b) ++ ":"
   ++ NilZero.string_of_uint (N.to_uint (port b)))%string.

(** [selectBox(index = 0)], for an index that is a natural number. *)
Definition selectBox (index : nat) (s : foxbox) : foxbox :=
  if Nat.leb (List.length (items (boxes s))) index
  then
    {| boxes := boxes s;
       configured := Some false;
       url := url s;
       ipaddrs := ipaddrs s;
       requests := requests s;
       callbacks := callbacks s;
       console_error := console_error s ++ ["Index out of range."] |}
  else
    match nth_error (items (boxes s)) index with
    | None => s
    | Some b =>
        {| boxes := boxes s;
           configured := configured s;
           url := Some (origin b);
           ipaddrs := Some (addresses b);
           requests := requests s ++ [SetProxyHost (hd_error (addresses b))];
           callbacks := callbacks s ++ [AfterProxyHost b];
           console_error := console_error s |}
    end.

Definition no_settings : string :=
  "Cannot set property 'configured' of undefined".

(** One of the two functions runs, with [this] bound as the caller chose. *)
Definition run_callback (this : receiver) (cb : callback) (s : foxbox)
  : foxbox * completion unit :=
  match cb with
  | AfterProxyHost b =>
      ({| boxes := boxes s;
          configured := configured s;
          url := url s;
          ipaddrs := ipaddrs s;
          requests := requests s ++ [SetProxyPort (port b)];
          callbacks := callbacks s ++ [AfterProxyPort];
          console_error := console_error s |}, Normal tt)
  | AfterProxyPort =>
      match this with
      | ThisInstance =>
          ({| boxes := boxes s;
              configured := Some true;
              url := url s;
              ipaddrs := ipaddrs s;
              requests := requests s;
              callbacks := callbacks s;
              console_error := console_error s |}, Normal tt)
      | ThisUndefined | ThisNull | ThisOther =>
          (s, Throw (TypeError no_settings))
      end
  end.

(** The plugin completes its oldest request and calls the function it was
    given for it. *)
Definition complete (this : receiver) (s : foxbox)
  : option (foxbox * completion unit) :=
  match callbacks s with
  | [] => None
  | cb :: rest =>
      Some (run_callback this cb
              {| boxes := boxes s;
                 configured := configured s;
                 url := url s;
                 ipaddrs := ipaddrs s;
                 requests := requests s;
                 callbacks := rest;
                 console_error := console_error s |})
  end.

Definition with_boxes (a : array box) (s : foxbox) : foxbox :=
  {| boxes := a;
     configured := configured s;
     url := url s;
     ipaddrs := ipaddrs s;
     requests := requests s;
     callbacks := callbacks s;
     console_error := console_error s |}.

(** The function given to [zeroconf.watch] (lines 124-132), an arrow
    function: [this] is the instance. *)
Definition watch_callback (action : string) (service : box) (s : foxbox)
  : foxbox * completion unit :=
  if String.eqb action "added"
  then
    match push service (boxes s) with
    | Throw e => (s, Throw e)
    | Normal a => (selectBox 0 (with_boxes a s), Normal tt)
    end
  else (s, Normal tt).

(** [_initDiscovery]: the function that watches, unless discovery is
    skipped. *)
Definition _initDiscovery (skipDiscovery : bool)
  : option (string -> box -> foxbox -> foxbox * completion unit) :=
  if skipDiscovery then None else Some watch_callback.

End Registry.

(** ** The operation dispatcher: [getOperationValueType]
    (foxbox.js, lines 447-463) *)
Module Operation.

(** [typeof x] *)
Definition typeof (x : value) : string :=
  match x with
  | VUndefined => "undefined"
  | VNull => "object"
  | VBool _ => "boolean"
  | VNumber _ | VNaN => "number"
  | VString _ => "string"
  | VObject _ _ => "object"
  end.

(** [x.k]: a [TypeError] on [undefined] and [null]; a primitive has no
    property of the names used here. *)
Definition member (x : value) (k : string) : completion value :=
  match x with
  | VUndefined | VNull =>
      Throw (TypeError "Cannot read property of undefined or null")
  | VObject _ props => Normal (get props k)
  | VBool _ | VNumber _ | VNaN | VString _ => Normal VUndefined
  end.

Definition not_defined : exn := Error "Operation kind is not defined!".

Definition getOperationValueType (operationKind : value) : completion value :=
  if negb (truthy operationKind)
  then Throw not_defined
  else if String.eqb (typeof operationKind) "object"
  then member operationKind "typ"
  else if strict_eq operationKind (VString "TakeSnapshot")
  then Normal (VString "Unit")
  else Normal operationKind.

End Operation.

(** ** Vocabulary of the statements about a cycle *)
Module Cycle.

(** No element of [storedServices] has the id of [service]. *)
Definition is_new (storedServices : list object) (service : object) : bool :=
  match find (same_id service) storedServices with
  | Some _ => false
  | None => true
  end.





(** Two records whose ids compare alike with every value. *)
Definition alike (s0 s : object) : Prop :=
  forall x, strict_eq (get s0 "id") x = strict_eq (get s "id") x.

(** The [service-change] event that closes a cycle, if any. *)
Definition closing_event (storedServices fetchedServices : list object)
  : list event :=
  if existsb (is_new storedServices) fetchedServices
     || negb (Nat.eqb (List.length fetchedServices)
                      (List.length storedServices))
  then [ServiceChange fetchedServices]
  else [].

End Cycle.
Import Cycle.

(** ** Sample data *)
Module Sample.

Definition stateA : object := [("a", VNumber 1)].
Definition stateB : object := [("b", VNumber 2); ("a", VNumber 1)].

(** [{id: 1, state: {a: 1}}], [{id: 1, state: {a: 2}}], [{id: 1}], [{id: 2}] *)
Definition cached1 : object :=
  [("id", VNumber 1); ("state", VObject 10 [("a", VNumber 1)])].
Definition fetched1 : object :=
  [("id", VNumber 1); ("state", VObject 11 [("a", VNumber 2)])].
Definition fetched2 : object := [("id", VNumber 2)].


(** A page loaded with [?session_token=XYZ], another with a bare
    [session_token] between two other parameters; nobody is logged in. *)
Definition page_token : Session.page :=
  {| Session.session := VUndefined;
     Session.search := "?session_token=XYZ";
     Session.search_assigned := None |}.
Definition box1 : Registry.box :=
  {| Registry.txtRecord := {| Registry.name := "foxbox.local" |};
     Registry.port := 3000;
     Registry.addresses := ["192.168.0.2"] |}.

(** A registry whose list holds [box1]; one whose list is empty and
    extensible. *)
Definition registry1 : Registry.foxbox :=
  Registry.with_boxes
    {| Registry.frozen := false; Registry.items := [box1] |}
    Registry.constructor.

Definition page_bare : Session.page :=
  {| Session.session := VUndefined;
     Session.search := "?a=1&session_token&b=2";
     Session.search_assigned := None |}.

End Sample.
Import Sample.

(** ** Vocabulary of the further properties *)
Module More.

Definition is_nan (v : value) : bool :=
  match v with VNaN => true | _ => false end.

End More.
Import More.

(** ** Vocabulary of the further properties of the scheduler *)
Module Liveness.
Import Scheduler.

(** The field is set whenever polling is enabled and only then, and the
    handle it holds names an armed timer or stands for a pending cycle. *)
Definition tracked (s : state) : Prop :=
  (isPollingEnabled s = true -> nextPollTimeout s <> None)
  /\ (isPollingEnabled s = false -> nextPollTimeout s = None)
  /\ (nextPollTimeout s <> None -> timers s <> [] \/ 0 < cycles s).

End Liveness.

(** ** What can happen to the box registry *)
Module Discovery.
Import Registry.

(** The plugin reports a service, somebody calls [selectBox], the plugin
    completes its oldest request.  An exception thrown inside a function the
    plugin calls does not reach the instance. *)
Inductive event : Type :=
| Found (action : string) (service : box)
| Select (index : nat)
| Completes (this : receiver).

Definition step (s : foxbox) (e : event) : foxbox :=
  match e with
  | Found action service => fst (watch_callback action service s)
  | Select index => selectBox index s
  | Completes this =>
      match complete this s with
      | Some (s', _) => s'
      | None => s
      end
  end.

Definition run (s : foxbox) (es : list event) : foxbox := fold_left step es s.

(** Nothing has been discovered, selected or asked of the plugin. *)
Definition untouched (s : foxbox) : Prop :=
  boxes s = {| frozen := true; items := [] |}
  /\ requests s = []
  /\ callbacks s = []
  /\ url s = None
  /\ ipaddrs s = None
  /\ configured s <> Some true.

End Discovery.

(** ** Vocabulary of the further properties of the session *)
Module Query.

(** The part holds no [&]. *)
Fixpoint no_amp (part : string) : bool :=
  match part with
  | EmptyString => true
  | String c part' => negb (Ascii.eqb c "&"%char) && no_amp part'
  end.

End Query.
Import Query.

(** ** Logging in and out: [login] and [logout] (foxbox.js, lines 200-214) *)
Module Account.
Import Session.

(** The characters [encodeURIComponent] leaves as they are: letters,
    digits and [- _ . ! ~ * ' ( )]. *)
Definition unreserved (c : ascii) : bool :=
  let n := nat_of_ascii c in
  (Nat.leb 65 n && Nat.leb n 90)
  || (Nat.leb 97 n && Nat.leb n 122)
  || (Nat.leb 48 n && Nat.leb n 57)
  || existsb (Ascii.eqb c)
       ["-"; "_"; "."; "!"; "~"; "*"; "'"; "("; ")"]%char.

Definition hex_digit (n : nat) : ascii :=
  match n with
  | 0 => "0" | 1 => "1" | 2 => "2" | 3 => "3" | 4 => "4" | 5 => "5"
  | 6 => "6" | 7 => "7" | 8 => "8" | 9 => "9" | 10 => "A" | 11 => "B"
  | 12 => "C" | 13 => "D" | 14 => "E" | _ => "F"
  end%char.

Definition hex_value (c : ascii) : nat :=
  match c with
  | "0" => 0 | "1" => 1 | "2" => 2 | "3" => 3 | "4" => 4 | "5" => 5
  | "6" => 6 | "7" => 7 | "8" => 8 | "9" => 9 | "A" => 10 | "B" => 11
  | "C" => 12 | "D" => 13 | "E" => 14 | _ => 15
  end%char.

(** [%XX] for one byte. *)
Definition percent (c : ascii) : string :=
  String "%" (String (hex_digit (nat_of_ascii c / 16))
                (String (hex_digit (nat_of_ascii c mod 16)) EmptyString)).

(** [encodeURIComponent(s)], byte by byte on the UTF-8 form of [s]; the
    address of a page is made of ASCII characters only. *)
Fixpoint encodeURIComponent (s : string) : string :=
  match s with
  | EmptyString => EmptyString
  | String c s' =>
      ((if unreserved c then String c EmptyString else percent c)
       ++ encodeURIComponent s')%string
  end.

(** Reading an encoded string back, byte by byte. *)
Fixpoint decode (s : string) : string :=
  match s with
  | EmptyString => EmptyString
  | String c s' =>
      if Ascii.eqb c "%"
      then match s' with
           | String h (String l s'') =>
               String (ascii_of_nat (16 * hex_value h + hex_value l))
                      (decode s'')
           | _ => String c (decode s')
           end
      else String c (decode s')
  end.

(** What may stand in an encoded string. *)
Definition encoded_char (c : ascii) : bool :=
  unreserved c || Ascii.eqb c "%".

Definition logout (st : page) : page :=
  {| session := VUndefined;
     search := search st;
     search_assigned := search_assigned st |}.

(** [login()]: the address given to [location.replace], if any; [href] is
    the address of the page and [origin] is [net.origin]. *)
Definition login (st : page) (origin href : string) : option string :=
  if isLoggedIn st
  then None
  else Some (origin ++ "/?redirect_url=" ++ encodeURIComponent href)%string.

End Account.

(** ** Reading and writing through the box: [getServiceState],
    [setServiceState], [performSetOperation], [performGetOperation]
    (foxbox.js, lines 343-421) *)
Module Requests.
Import Operation.

(** How a promise ends, if it does. *)
Inductive promise (A : Type) : Type :=
| Resolved (a : A)
| Rejected (e : exn)
| Pending.
Arguments Resolved {A} a.
Arguments Rejected {A} e.
Arguments Pending {A}.

Definition failed : exn := Error "The action couldn't be performed.".

(** [getServiceState(id)], given how the promise of [fetchJSON] ends:
    [Throw] stands for its rejection. *)
Definition getServiceState (fetched : completion value) : promise value :=
  match fetched with
  | Throw e => Rejected e
  | Normal res =>
      if negb (truthy res) then Rejected failed else Resolved res
  end.

(** [setServiceState(id, state)]: the promise made by [new Promise] is
    settled by the [then] callback only; nothing is attached to a rejection
    of [fetchJSON]. *)
Definition setServiceState (fetched : completion value) : promise unit :=
  match fetched with
  | Throw _ => Pending
  | Normal res =>
      if negb (truthy res)
      then Rejected failed
      else
        match member res "result" with
        | Throw _ => Pending
        | Normal result =>
            if negb (truthy result)
               || negb (strict_eq result (VString "success"))
            then Rejected failed
            else Resolved tt
        end
  end.

(** [net.origin] and [settings.apiVersion], the latter as the template
    literal prints it. *)
Record net : Type := { origin : string; apiVersion : string }.

Inductive transport : Type :=
| FetchJSON
| FetchBlob (accept : string).

(** A call of [fetchJSON] or [fetchBlob].  The body is [{id: selector}]
    for [channels/get] and [[[{id: selector}, {[key]: value}]]] for
    [channels/set], [framed] holding the value [key] is computed from and
    the value sent under it. *)
Record request : Type := {
  via : transport;
  url : string;
  method : string;
  selector : value;
  framed : option (value * value)
}.

Definition channels (n : net) (verb : string) : string :=
  (origin n ++ "/api/v" ++ apiVersion n ++ "/channels/" ++ verb)%string.

Definition performSetOperation (n : net) (operation : object) (v : value)
  : completion request :=
  match getOperationValueType (get operation "kind") with
  | Throw e => Throw e
  | Normal operationType =>
      Normal {| via := FetchJSON;
                url := channels n "set";
                method := "PUT";
                selector := get operation "id";
                framed := Some (operationType, v) |}
  end.

Definition performGetOperation (n : net) (operation : object)
  : completion request :=
  match member (get operation "kind") "typ" with
  | Throw e => Throw e
  | Normal typ =>
      if strict_eq typ (VString "Binary")
      then Normal {| via := FetchBlob "image/jpeg";
                     url := channels n "get";
                     method := "PUT";
                     selector := get operation "id";
                     framed := None |}
      else Normal {| via := FetchJSON;
                     url := channels n "get";
                     method := "PUT";
                     selector := get operation "id";
                     framed := None |}
  end.

End Requests.

(** ** The earlier client: [loadJSON], [getServices] and
    [changeServiceState] (app/js/lib/foxbox.js) *)
Module Legacy.
Import Requests.

(** [REQUEST_TIMEOUT], in milliseconds. *)
Definition REQUEST_TIMEOUT : N := 5000.

Definition timed_out : exn := TypeError "Request timed out".

(** [`The response returned a ${res.status} HTTP status code.`] *)
Definition bad_status (status : N) : exn :=
  TypeError ("The response returned a "
             ++ NilZero.string_of_uint (N.to_uint status)
             ++ " HTTP status code.")%string.

(** What [fetch] resolves with: [res.ok], [res.status] and how the promise
    of [res.json()] ends. *)
Record response : Type := {
  ok : bool;
  status : N;
  json : completion value
}.

(** The promise [loadJSON] returns and what can still settle it: the
    outcome once settled, the flag [hasTimedOut], whether the timeout is
    still armed, whether [fetch] is still under way, and the rejections
    nobody handles. *)
Record load : Type := {
  settled : option (completion value);
  hasTimedOut : bool;
  timeout : bool;
  fetching : bool;
  unhandled : list exn
}.

(** Right after the call. *)
Definition loadJSON : load :=
  {| settled := None;
     hasTimedOut := false;
     timeout := true;
     fetching := true;
     unhandled := [] |}.

(** [resolve(...)] and [reject(...)] act on a promise not yet settled. *)
Definition settle (o : completion value) (s : load) : load :=
  match settled s with
  | Some _ => s
  | None =>
      {| settled := Some o;
         hasTimedOut := hasTimedOut s;
         timeout := timeout s;
         fetching := fetching s;
         unhandled := unhandled s |}
  end.

Inductive event : Type :=
| TimeoutFires
| FetchFulfils (res : response)
| FetchRejects (e : exn).

(** The timeout fires only while armed; [fetch] settles once. *)
Definition step (s : load) (e : event) : option load :=
  match e with
  | TimeoutFires =>
      if timeout s
      then Some (settle (Throw timed_out)
                   {| settled := settled s;
                      hasTimedOut := true;
                      timeout := false;
                      fetching := fetching s;
                      unhandled := unhandled s |})
      else None
  | FetchFulfils res =>
      if fetching s
      then
        if hasTimedOut s
        then Some {| settled := settled s;
                     hasTimedOut := hasTimedOut s;
                     timeout := timeout s;
                     fetching := false;
                     unhandled := unhandled s |}
        else
          if ok res
          then Some (settle (json res)
                       {| settled := settled s;
                          hasTimedOut := hasTimedOut s;
                          timeout := false;
                          fetching := false;
                          unhandled := unhandled s |})
          else Some {| settled := settled s;
                       hasTimedOut := hasTimedOut s;
                       timeout := false;
                       fetching := false;
                       unhandled := unhandled s
                                    ++ [bad_status (status res)] |}
      else None
  | FetchRejects e =>
      if fetching s
      then Some {| settled := settled s;
                   hasTimedOut := hasTimedOut s;
                   timeout := timeout s;
                   fetching := false;
                   unhandled := unhandled s ++ [e] |}
      else None
  end.

Fixpoint run (s : load) (es : list event) : option load :=
  match es with
  | [] => Some s
  | e :: es' =>
      match step s e with
      | Some s' => run s' es'
      | None => None
      end
  end.

(** [changeServiceState(id, state)], given the promise of [loadJSON] as it
    stands: only its fulfilment is listened to. *)
Definition changeServiceState (loaded : option (completion value))
  : promise unit :=
  match loaded with
  | None => Pending
  | Some (Throw _) => Pending
  | Some (Normal res) =>
      if negb (truthy res)
      then Rejected failed
      else
        match Operation.member res "result" with
        | Throw _ => Pending
        | Normal result =>
            if negb (truthy result)
               || negb (strict_eq result (VString "success"))
            then Rejected failed
            else Resolved tt
        end
  end.

(** [service => service.name !== 'dummy service'] *)
Definition not_dummy (service : object) : bool :=
  negb (strict_eq (get service "name") (VString "dummy service")).

(** [services.forEach((service, id) => service.state = states[id])] *)
Fixpoint forEach_state (services : list object) (states : list value)
  (id : nat) : list object :=
  match services with
  | [] => []
  | service :: rest =>
      set service "state" (nth id states VUndefined)
        :: forEach_state rest states (S id)
  end.

Inductive db_call : Type :=
| ClearServices
| SetService (service : object).

(** [getServices()], given the list the box resolves with, the array
    [Promise.all] resolves with for the states and how the promise of
    [db.clearServices()] ends: the services it resolves with and the calls
    it makes to the database. *)
Definition getServices (services : list object) (states : list value)
  (cleared : completion unit) : list object * list db_call :=
  let services := filter not_dummy services in
  let services := forEach_state services states 0 in
  (services,
   ClearServices
     :: match cleared with
        | Normal _ => map SetService services
        | Throw _ => []
        end).

End Legacy.

(** ** The view of one service: [onServiceStateChanged]
    (app/js/views/services/default.jsx, lines 36-43) *)
Module View.

(** [props.id], [this.service] and [state.data]. *)
Record component : Type := {
  id : value;
  service : object;
  data : value
}.

Definition onServiceStateChanged (c : component) (service' : object)
  : component :=
  if negb (strict_eq (get service' "id") (id c))
  then c
  else {| id := id c; service := service'; data := get service' "tags" |}.

(** The component listens to [service-state-change] only. *)
Definition deliver (c : component) (e : Reconciler.event) : component :=
  match e with
  | ServiceStateChange service' => onServiceStateChanged c service'
  | ServiceChange _ => c
  end.

(** The last element a predicate holds for. *)
Fixpoint last_such {X : Type} (p : X -> bool) (l : list X) : option X :=
  match l with
  | [] => None
  | x :: l' =>
      match last_such p l' with
      | Some y => Some y
      | None => if p x then Some x else None
      end
  end.

End View.

(** ** Starting up: [init] (foxbox.js, lines 64-90) *)
Module Startup.
Import Requests.

(** The page, whether the plugin watches, whether the network layer and
    the database are initialised, whether the settings are listened to, the
    scheduler, and whether [recipes] is set. *)
Record app : Type := {
  page : Session.page;
  watching : bool;
  net_ready : bool;
  db_ready : bool;
  listening : bool;
  scheduler : Scheduler.state;
  recipes : bool
}.

(** What [init] finds around it: two settings, and how the call of
    [zeroconf.watch] and the promises of [net.init()] and [db.init()]
    end. *)
Record environment : Type := {
  skipDiscovery : bool;
  pollingEnabled : bool;
  watch : completion unit;
  net_init : completion unit;
  db_init : completion unit
}.

(** [init] throws, or returns a promise. *)
Inductive outcome : Type :=
| Thrown (e : exn)
| Returned (p : promise unit).

Definition init (env : environment) (a : app) : app * outcome :=
  match Session._initUserSession (page a) with
  | (page', Throw e) =>
      ({| page := page';
          watching := watching a;
          net_ready := net_ready a;
          db_ready := db_ready a;
          listening := listening a;
          scheduler := scheduler a;
          recipes := recipes a |}, Thrown e)
  | (page', Normal _) =>
      let a1 :=
        {| page := page';
           watching := watching a;
           net_ready := net_ready a;
           db_ready := db_ready a;
           listening := listening a;
           scheduler := scheduler a;
           recipes := recipes a |} in
      (* _initDiscovery *)
      match (if skipDiscovery env then Normal tt else watch env) with
      | Throw e => (a1, Returned (Rejected e))
      | Normal _ =>
          let a2 :=
            {| page := page a1;
               watching := watching a1 || negb (skipDiscovery env);
               net_ready := net_ready a1;
               db_ready := db_ready a1;
               listening := listening a1;
               scheduler := scheduler a1;
               recipes := recipes a1 |} in
          match net_init env with
          | Throw e => (a2, Returned (Rejected e))
          | Normal _ =>
              match db_init env with
              | Throw e =>
                  ({| page := page a2;
                      watching := watching a2;
                      net_ready := true;
                      db_ready := db_ready a2;
                      listening := listening a2;
                      scheduler := scheduler a2;
                      recipes := recipes a2 |}, Returned (Rejected e))
              | Normal _ =>
                  ({| page := page a2;
                      watching := watching a2;
                      net_ready := true;
                      db_ready := true;
                      listening := true;
                      scheduler :=
                        Scheduler.togglePolling (pollingEnabled env)
                          (scheduler a2);
                      recipes := true |}, Returned (Resolved tt))
              end
          end
      end
  end.

(** Before [init]. *)
Definition fresh (p : Session.page) : app :=
  {| page := p;
     watching := false;
     net_ready := false;
     db_ready := false;
     listening := false;
     scheduler := Scheduler.init;
     recipes := false |}.

End Startup.

(** ** More sample data *)
Module Sample2.
Import Legacy.

Definition response404 : response :=
  {| ok := false; status := 404; json := Normal VNull |}.
Definition response200 : response :=
  {| ok := true; status := 200;
     json := Normal (VObject 1 [("result", VString "success")]) |}.

(** [loadJSON] after a 404 in time; after a timeout and a late response. *)
Definition after404 : load :=
  {| settled := None;
     hasTimedOut := false;
     timeout := false;
     fetching := false;
     unhandled := [bad_status 404] |}.
Definition after_timeout : load :=
  {| settled := Some (Throw timed_out);
     hasTimedOut := true;
     timeout := false;
     fetching := false;
     unhandled := [] |}.

(** A list of the box with a dummy service in the middle. *)
Definition listed : list object :=
  [ [("id", VNumber 1); ("name", VString "lamp")];
    [("id", VNumber 2); ("name", VString "dummy service")];
    [("id", VNumber 3); ("name", VString "door")] ].

(** A page loaded without query string, nobody logged in; surroundings in
    which every step of [init] succeeds and polling is enabled. *)
Definition page_plain : Session.page :=
  {| Session.session := VUndefined;
     Session.search := "";
     Session.search_assigned := None |}.
Definition env_ok : Startup.environment :=
  {| Startup.skipDiscovery := false;
     Startup.pollingEnabled := true;
     Startup.watch := Normal tt;
     Startup.net_init := Normal tt;
     Startup.db_init := Normal tt |}.

End Sample2.
Import Sample2.

(* ================================================================== *)
(** * Part II: properties *)
(* ================================================================== *)

(** ** Objects as property lists *)
Section ObjectFacts.

Lemma mem_string_In k l : mem_string k l = true <-> In k l.
Proof.
  induction l as [|k' l IH]; simpl.
  - split; [discriminate | tauto].
  - rewrite orb_true_iff, IH, String.eqb_eq. tauto.
Qed.

Lemma distinct_NoDup l : distinct l = true <-> NoDup l.
Proof.
  induction l as [|k l IH]; simpl.
  - split; [constructor | reflexivity].
  - rewrite andb_true_iff, negb_true_iff, IH. split.
    + intros [Hm Hd]. constructor; [|assumption].
      rewrite <- mem_string_In, Hm. discriminate.
    + intros Hn. inversion Hn as [|? ? Hnotin Hd]; subst. split; [|assumption].
      destruct (mem_string k l) eqn:E; [|reflexivity].
      apply mem_string_In in E. contradiction.
Qed.

Lemma lookup_In o k v : lookup o k = Some v -> In (k, v) o.
Proof.
  induction o as [|[k' v'] o IH]; simpl; [discriminate|].
  destruct (String.eqb_spec k' k) as [->|Hne].
  - intros [= ->]. now left.
  - intros H. right. now apply IH.
Qed.

Lemma lookup_None o k : lookup o k = None <-> ~ In k (keys o).
Proof.
  induction o as [|[k' v'] o IH]; simpl.
  - tauto.
  - destruct (String.eqb_spec k' k) as [->|Hne].
    + split; [discriminate | intros H; exfalso; apply H; now left].
    + rewrite IH. split; [intros H [E|E]; [congruence | tauto] | tauto].
Qed.

Lemma In_lookup o k v :
  NoDup (keys o) -> In (k, v) o -> lookup o k = Some v.
Proof.
  induction o as [|[k' v'] o IH]; simpl; [tauto|].
  intros Hnd [E|Hin].
  - injection E as -> ->. now rewrite String.eqb_refl.
  - inversion Hnd as [|? ? Hnotin Hnd']; subst.
    destruct (String.eqb_spec k' k) as [->|Hne].
    + exfalso. apply Hnotin. change k with (fst (k, v)). now apply in_map.
    + now apply IH.
Qed.

Lemma lookup_perm o o' k :
  NoDup (keys o) -> Permutation o o' -> lookup o k = lookup o' k.
Proof.
  intros Hnd Hp.
  assert (Hnd' : NoDup (keys o')).
  { eapply Permutation_NoDup; [|exact Hnd]. now apply Permutation_map. }
  destruct (lookup o k) as [v|] eqn:E.
  - symmetry. apply In_lookup; [assumption|].
    eapply Permutation_in; [exact Hp|]. now apply lookup_In.
  - symmetry. apply lookup_None. apply lookup_None in E.
    intros Hin. apply E.
    eapply Permutation_in; [|exact Hin].
    apply Permutation_sym. now apply Permutation_map.
Qed.

End ObjectFacts.

(** ** Subset-equality *)
Section SimilarFacts.

Lemma isSimilar_loop_object ks objectA rb B :
  isSimilar_loop ks objectA (VObject rb B)
  = Normal (forallb (agrees (enumerable objectA) B) ks).
Proof.
  induction ks as [|k ks IH]; simpl; [reflexivity|].
  unfold has_own, agrees at 1, read, get at 2; simpl.
  destruct (lookup B k) as [vb|]; simpl; [|reflexivity].
  destruct (strict_eq (get (enumerable objectA) k) vb); simpl;
    [exact IH | reflexivity].
Qed.

Lemma isSimilar_object objectA rb B :
  isSimilar objectA (VObject rb B)
  = Normal (forallb (agrees (enumerable objectA) B)
              (keys (enumerable objectA))).
Proof. apply isSimilar_loop_object. Qed.

Lemma isSimilar_objects ra A rb B :
  isSimilar (VObject ra A) (VObject rb B)
  = Normal (forallb (agrees A B) (keys A)).
Proof. apply isSimilar_object. Qed.

Lemma subset_equal_object objectA rb B :
  subset_equal objectA (VObject rb B)
  <-> forallb (agrees (enumerable objectA) B)
        (keys (enumerable objectA)) = true.
Proof.
  rewrite forallb_forall. unfold subset_equal, agrees, read; simpl. split.
  - intros H k Hk. destruct (H k Hk) as (vb & -> & _ & E). exact E.
  - intros H k Hk. specialize (H k Hk).
    destruct (lookup B k) as [vb|]; [|discriminate]. now exists vb.
Qed.

Lemma subset_equal_agrees ra A rb B :
  subset_equal (VObject ra A) (VObject rb B)
  <-> forallb (agrees A B) (keys A) = true.
Proof. apply subset_equal_object. Qed.

Lemma forallb_perm {X} (f : X -> bool) l l' :
  Permutation l l' -> forallb f l = forallb f l'.
Proof.
  induction 1 as [|x l l' _ IH|x y l|l l' l'' _ IH1 _ IH2]; simpl.
  - reflexivity.
  - now rewrite IH.
  - now rewrite !andb_assoc, (andb_comm (f y) (f x)).
  - congruence.
Qed.

Lemma forallb_pointwise {X} (f g : X -> bool) l :
  (forall x, In x l -> f x = g x) -> forallb f l = forallb g l.
Proof.
  induction l as [|x l IH]; simpl; [reflexivity|].
  intros H. rewrite (H x) by now left. f_equal. apply IH.
  intros y Hy. apply H. now right.
Qed.

Lemma agrees_perm A A' B B' k :
  NoDup (keys A) -> NoDup (keys B) ->
  Permutation A A' -> Permutation B B' ->
  agrees A' B' k = agrees A B k.
Proof.
  intros HA HB PA PB. unfold agrees, get.
  now rewrite <- (lookup_perm B B' k HB PB), <- (lookup_perm A A' k HA PA).
Qed.

Lemma lookup_app_found B extra k v :
  lookup B k = Some v -> lookup (B ++ extra) k = Some v.
Proof.
  induction B as [|[k' v'] B IH]; simpl; [discriminate|].
  destruct (String.eqb k' k); [tauto | exact IH].
Qed.

(** The comparison throws exactly when it has a key to look for and the
    right-hand side is not an object. *)
Lemma isSimilar_throws objectA objectB :
  (exists e, isSimilar objectA objectB = Throw e)
  <-> enumerable objectA <> [] /\ is_object objectB = false.
Proof.
  unfold isSimilar. destruct (is_object objectB) eqn:HB.
  - destruct objectB as [| | | | | |rb B]; try discriminate HB. split.
    + intros [e H]. exfalso. revert H.
      generalize (keys (enumerable objectA)) as ks.
      induction ks as [|k ks IH]; simpl; [discriminate|].
      destruct (has_own B k); [|discriminate].
      destruct (strict_eq _ _); [exact IH | discriminate].
    + intros [_ [=]].
  - destruct (enumerable objectA) as [|[k v] o]; simpl.
    + split; [intros [e [=]] | intros [H _]; now destruct H].
    + split; [intros _; split; [discriminate | reflexivity]|].
      intros _. destruct objectB; try discriminate HB; eexists; reflexivity.
Qed.

Lemma isSimilar_no_keys objectA objectB :
  enumerable objectA = [] -> isSimilar objectA objectB = Normal true.
Proof. unfold isSimilar. now intros ->. Qed.

Lemma keyless_enumerable x : keyless x = true <-> enumerable x = [].
Proof.
  unfold keyless. destruct (enumerable x); split; congruence.
Qed.

(** Where the comparison cannot throw it decides subset-equality. *)
Lemma isSimilar_decides objectA objectB :
  keyless objectA || is_object objectB = true ->
  exists b, isSimilar objectA objectB = Normal b
            /\ (b = true <-> subset_equal objectA objectB).
Proof.
  intros H. apply orb_true_iff in H. destruct H as [H|H].
  - apply keyless_enumerable in H. exists true. split.
    + now apply isSimilar_no_keys.
    + split; [|reflexivity]. intros _ k Hk. rewrite H in Hk. destruct Hk.
  - destruct objectB as [| | | | | |rb B]; try discriminate H.
    eexists. split; [apply isSimilar_object|].
    symmetry. apply subset_equal_object.
Qed.

End SimilarFacts.

(** C3. For all state objects A and B: when every key of A exists in B with
    a strictly equal value, [isSimilar(A, B)] is true, whatever extra keys B
    has and in whatever order the keys of A and B are enumerated; and the
    relation is not symmetric: there are A and B, the keys of A a strict
    subset of those of B, with [isSimilar(A, B)] true and [isSimilar(B, A)]
    false. *)
Theorem isSimilar_subset_equality :
  (forall ra A rb B,
      subset_equal (VObject ra A) (VObject rb B) ->
      isSimilar (VObject ra A) (VObject rb B) = Normal true
      /\ (forall extra,
             isSimilar (VObject ra A) (VObject rb (B ++ extra)) = Normal true)
      /\ (forall A' B',
             wf_object A = true -> wf_object B = true ->
             Permutation A A' -> Permutation B B' ->
             isSimilar (VObject ra A') (VObject rb B') = Normal true))
  /\ (exists ra A rb B,
         incl (keys A) (keys B) /\ ~ incl (keys B) (keys A)
         /\ isSimilar (VObject ra A) (VObject rb B) = Normal true
         /\ isSimilar (VObject rb B) (VObject ra A) = Normal false).
Proof.
  split.
  - intros ra A rb B H. pose proof H as Hb.
    apply subset_equal_agrees in Hb. repeat split.
    + now rewrite isSimilar_objects, Hb.
    + intros extra. rewrite isSimilar_objects. f_equal.
      apply forallb_forall. intros k Hk.
      destruct (H k Hk) as (vb & Hl & _ & E). simpl in Hl.
      unfold agrees. now rewrite (lookup_app_found B extra k vb Hl).
    + intros A' B' HA HB PA PB.
      apply distinct_NoDup in HA. apply distinct_NoDup in HB.
      rewrite isSimilar_objects, <- Hb. f_equal.
      rewrite <- (forallb_perm (agrees A' B') (keys A) (keys A'))
        by (now apply Permutation_map).
      apply forallb_pointwise. intros k _. now apply agrees_perm.
  - exists 7%nat, stateA, 8%nat, stateB. repeat split.
    + intros k [<-|[]]. right. now left.
    + intros H. specialize (H "b" (or_introl eq_refl)).
      destruct H as [E|[]]. discriminate E.
Qed.

(** The first half of C3 at [{a: 1}] against [{b: 2, a: 1}]. *)
Lemma isSimilar_subset_equality_witness :
  subset_equal (VObject 7 stateA) (VObject 8 stateB)
  /\ isSimilar (VObject 7 stateA) (VObject 8 stateB) = Normal true.
Proof.
  assert (H : subset_equal (VObject 7 stateA) (VObject 8 stateB)).
  { apply subset_equal_agrees. reflexivity. }
  split; [exact H|].
  exact (proj1 (proj1 isSimilar_subset_equality 7%nat stateA 8%nat stateB H)).
Defined.

(** ** [Object.assign] and strict equality *)
Section AssignFacts.

Lemma lookup_set o k v k' :
  lookup (set o k v) k' = if String.eqb k k' then Some v else lookup o k'.
Proof.
  induction o as [|[k0 v0] o IH]; simpl; [reflexivity|].
  destruct (String.eqb_spec k0 k) as [->|Hne]; simpl.
  - destruct (String.eqb k k'); reflexivity.
  - rewrite IH. destruct (String.eqb_spec k0 k') as [->|Hne'];
      [|reflexivity].
    destruct (String.eqb_spec k k') as [->|_]; [contradiction | reflexivity].
Qed.

(** The properties of the source overwrite, the other properties of the
    target survive. *)
Lemma lookup_assign target source k :
  NoDup (keys source) ->
  lookup (assign target source) k
  = match lookup source k with
    | Some v => Some v
    | None => lookup target k
    end.
Proof.
  unfold assign. revert target.
  induction source as [|[k0 v0] source IH]; intros target Hnd; simpl;
    [reflexivity|].
  inversion Hnd as [|? ? Hnotin Hnd']; subst.
  rewrite (IH _ Hnd'), lookup_set.
  destruct (String.eqb_spec k0 k) as [->|Hne]; [|reflexivity].
  apply lookup_None in Hnotin. now rewrite Hnotin.
Qed.

Lemma get_assign target source k :
  wf_object source = true ->
  get (assign target source) k
  = if has_own source k then get source k else get target k.
Proof.
  intros Hwf. apply distinct_NoDup in Hwf.
  unfold get, has_own. rewrite (lookup_assign _ _ _ Hwf).
  destruct (lookup source k); reflexivity.
Qed.

(** Strict equality relates values that compare alike with everything. *)
Lemma strict_eq_congruent a b x :
  strict_eq a b = true -> strict_eq a x = strict_eq b x.
Proof.
  destruct a, b; simpl; try discriminate; intros H;
    destruct x; simpl; try reflexivity.
  - apply eqb_prop in H. now subst.
  - apply Z.eqb_eq in H. now subst.
  - apply String.eqb_eq in H. now subst.
  - apply Nat.eqb_eq in H. now subst.
Qed.

Lemma strict_eq_undefined a : strict_eq a VUndefined = true -> a = VUndefined.
Proof. destruct a; simpl; congruence. Qed.

End AssignFacts.

(** ** One reconciliation cycle *)
Section ReconcilerFacts.

Lemma reduce_callback_new w hasNew f :
  find (same_id f) (stored w) = None ->
  reduce_callback w hasNew f
  = (setService f (dispatchEvent (ServiceStateChange f) w), Normal true).
Proof.
  intros H. unfold reduce_callback. rewrite H. simpl.
  now rewrite orb_true_r.
Qed.

Lemma reduce_callback_similar w hasNew f c :
  find (same_id f) (stored w) = Some c ->
  isSimilar (get f "state") (get c "state") = Normal true ->
  reduce_callback w hasNew f = (w, Normal hasNew).
Proof. intros H E. unfold reduce_callback. now rewrite H, E. Qed.

Lemma reduce_callback_changed w hasNew f c :
  find (same_id f) (stored w) = Some c ->
  isSimilar (get f "state") (get c "state") = Normal false ->
  reduce_callback w hasNew f
  = (setService (assign c f)
       (dispatchEvent (ServiceStateChange (assign c f)) (assign_stored f w)),
     Normal hasNew).
Proof.
  intros H E. unfold reduce_callback. rewrite H, E. simpl.
  now rewrite orb_false_r.
Qed.

(** The merged record keeps the id the two records share. *)
Lemma assign_keeps_id f c :
  same_id f c = true -> wf_object f = true ->
  get (assign c f) "id" = get f "id".
Proof.
  intros Hid Hwf. rewrite (get_assign _ _ _ Hwf).
  unfold has_own, same_id, get in *.
  destruct (lookup f "id"); [reflexivity|].
  now apply strict_eq_undefined in Hid.
Qed.


Lemma alike_refl l : Forall2 alike l l.
Proof. induction l; constructor; [intros x; reflexivity | assumption]. Qed.

Lemma alike_trans l1 l2 l3 :
  Forall2 alike l1 l2 -> Forall2 alike l2 l3 -> Forall2 alike l1 l3.
Proof.
  intros H. revert l3. induction H as [|a b l1 l2 Hab _ IH]; intros l3 H3;
    inversion H3; subst; constructor.
  - intros x. now rewrite Hab.
  - now apply IH.
Qed.

Lemma alike_is_new l0 l f : Forall2 alike l0 l -> is_new l0 f = is_new l f.
Proof.
  unfold is_new. induction 1 as [|s0 s l0 l Hs _ IH]; simpl; [reflexivity|].
  unfold same_id at 1 3. rewrite (Hs (get f "id")).
  destruct (strict_eq (get s "id") (get f "id")); [reflexivity | exact IH].
Qed.

Lemma alike_length l0 l : Forall2 alike l0 l -> List.length l0 = List.length l.
Proof. induction 1; simpl; congruence. Qed.


Lemma mutate_found_alike f l :
  wf_object f = true ->
  Forall2 alike l (mutate_found (same_id f) (fun s => assign s f) l).
Proof.
  intros Hwf. induction l as [|s l IH]; simpl; [constructor|].
  destruct (same_id f s) eqn:E.
  - constructor; [|apply alike_refl].
    intros x. rewrite (assign_keeps_id f s E Hwf).
    now apply strict_eq_congruent.
  - constructor; [intros x; reflexivity | exact IH].
Qed.


End ReconcilerFacts.

Section CycleFacts.








End CycleFacts.







Section ProjectionFacts.

(** With no key to look for on the fetched side a cycle only sees the new
    services. *)
Lemma reduce_keyless fetched :
  forall w hasNew,
    forallb (fun f => keyless (get f "state")) fetched = true ->
    reduce w hasNew fetched
    = ({| stored := stored w;
          dispatched := dispatched w
                        ++ map ServiceStateChange
                             (filter (is_new (stored w)) fetched);
          db_setService := db_setService w
                           ++ filter (is_new (stored w)) fetched |},
       Normal (hasNew || existsb (is_new (stored w)) fetched)).
Proof.
  induction fetched as [|f fetched IH]; intros [st ev db] hasNew Hk; simpl.
  - now rewrite !app_nil_r, orb_false_r.
  - simpl in Hk. apply andb_true_iff in Hk. destruct Hk as [Hf Hk].
    unfold reduce_callback. simpl.
    destruct (find (same_id f) st) as [c|] eqn:Hfind.
    + assert (Hn : is_new st f = false)
        by (unfold is_new; now rewrite Hfind).
      apply keyless_enumerable in Hf.
      rewrite (isSimilar_no_keys _ (get c "state") Hf).
      rewrite (IH _ _ Hk), Hn. simpl. reflexivity.
    + assert (Hn : is_new st f = true)
        by (unfold is_new; now rewrite Hfind).
      simpl. rewrite (IH _ _ Hk), Hn. simpl.
      now rewrite <- !app_assoc, orb_true_r.
Qed.

Lemma fetchServices_keyless response :
  forallb (fun f => keyless (get f "state")) (fetchServices response) = true.
Proof. induction response as [|s r IH]; simpl; [reflexivity | exact IH]. Qed.

End ProjectionFacts.

(** C10. Every service the projection of [fetchServices] produces has
    exactly the fields [id], [type] (the [adapter] of the response),
    [getters], [setters] and [properties], in particular no [state]; so the
    fetched state given to the comparison is [undefined], the comparison
    holds against any cached state, and a logged-in cycle neither throws nor
    dispatches or writes anything but the new services. *)
Theorem fetchServices_projection :
  forall response,
    Forall2 (fun service f =>
               keys f = ["id"; "type"; "getters"; "setters"; "properties"]
               /\ get f "id" = get service "id"
               /\ get f "type" = get service "adapter"
               /\ get f "getters" = get service "getters"
               /\ get f "setters" = get service "setters"
               /\ get f "properties" = get service "properties"
               /\ has_own f "state" = false
               /\ get f "state" = VUndefined
               /\ forall cachedState,
                   isSimilar (get f "state") cachedState = Normal true)
            response (fetchServices response)
    /\ forall session rows,
         isLoggedIn session = true ->
         exists w,
           refreshServicesByPolling session rows response
           = (w, Normal (Some (fetchServices response)))
           /\ stored w = getServices rows
           /\ dispatched w
              = map ServiceStateChange
                  (filter (is_new (getServices rows)) (fetchServices response))
                ++ closing_event (getServices rows) (fetchServices response)
           /\ db_setService w
              = filter (is_new (getServices rows)) (fetchServices response).
Proof.
  intros response. split.
  - induction response as [|service response IH]; simpl; constructor;
      [|exact IH].
    repeat split.
  - intros session rows Hin. unfold refreshServicesByPolling, reconcile.
    rewrite Hin. simpl.
    rewrite (reduce_keyless _ _ _ (fetchServices_keyless response)). simpl.
    unfold closing_event.
    destruct (existsb (is_new (getServices rows)) (fetchServices response)
              || negb (Nat.eqb (List.length (fetchServices response))
                               (List.length (getServices rows))));
      eexists; (split; [reflexivity|]); simpl; repeat split;
      now rewrite ?app_nil_r.
Qed.

(** C10 for a session token ["t"], one cached row and a response whose
    service reports a state. *)
Lemma fetchServices_projection_witness :
  isLoggedIn (VString "t") = true
  /\ exists w,
       refreshServicesByPolling (VString "t") [ {| data := cached1 |} ]
         [fetched1]
       = (w, Normal (Some (fetchServices [fetched1])))
       /\ dispatched w = [].
Proof.
  split; [reflexivity|].
  destruct (proj2 (fetchServices_projection [fetched1]) (VString "t")
              [ {| data := cached1 |} ] eq_refl) as (w & Hr & _ & Hd & _).
  exists w. split; [exact Hr | exact Hd].
Defined.

(** ** The polling scheduler *)
Section SchedulerFacts.
Import Scheduler.

(** [schedulePoll] does nothing while the field holds a handle. *)
Lemma schedulePoll_scheduled s t :
  nextPollTimeout s = Some t -> schedulePoll s = s.
Proof.
  intros H. unfold schedulePoll. rewrite H. now rewrite orb_true_r.
Qed.

Lemma schedulePoll_disabled s :
  isPollingEnabled s = false -> schedulePoll s = s.
Proof. intros H. unfold schedulePoll. now rewrite H. Qed.

Lemma togglePolling_scheduled s t :
  isPollingEnabled s = true -> nextPollTimeout s = Some t ->
  togglePolling true s = s.
Proof.
  destruct s as [en npt ts nt cy co]; simpl. intros -> ->. reflexivity.
Qed.

(** Settling re-arms exactly when polling is enabled at that time. *)
Lemma settle_callback_rearms outcome s :
  let s' := settle_callback outcome s in
  isPollingEnabled s' = isPollingEnabled s
  /\ cycles s' = cycles s
  /\ (if isPollingEnabled s
      then nextPollTimeout s' = Some (next_timer s)
           /\ timers s' = timers s ++ [next_timer s]
      else nextPollTimeout s' = None /\ timers s' = timers s).
Proof.
  destruct s as [[|] npt ts nt cy co]; destruct outcome; simpl; auto.
Qed.

(** A failed cycle leaves a line on the console and is otherwise settled
    like a successful one. *)
Lemma settle_callback_failure e s :
  let ok := settle_callback (Normal tt) s in
  let ko := settle_callback (Throw e) s in
  console ko
  = console s ++ ["Polling has failed, scheduling one more attempt: "]
  /\ console ok = console s
  /\ isPollingEnabled ko = isPollingEnabled ok
  /\ nextPollTimeout ko = nextPollTimeout ok
  /\ timers ko = timers ok
  /\ cycles ko = cycles ok.
Proof.
  destruct s as [[|] npt ts nt cy co]; simpl; auto 10.
Qed.

Lemma single_flight_step s e s' :
  single_flight s -> (e = Toggle false -> cycles s = 0) ->
  step s e = Some s' -> single_flight s'.
Proof.
  destruct s as [en npt ts nt cy co]. unfold single_flight; simpl.
  intros Hinv Hoff. destruct e as [[|]| |t|outcome]; simpl.
  - intros [= <-]. unfold schedulePoll; simpl.
    destruct npt as [t|]; simpl; [exact Hinv|].
    destruct Hinv as [-> ->]. simpl. now left.
  - intros [= <-]. simpl. specialize (Hoff eq_refl). subst cy.
    destruct npt as [t|]; simpl; [|exact Hinv].
    destruct Hinv as [[-> _]|[-> [=]]]. simpl.
    now rewrite Nat.eqb_refl.
  - intros [= <-]. unfold schedulePoll; simpl.
    destruct en; simpl; [|exact Hinv].
    destruct npt as [t|]; simpl; [exact Hinv|].
    destruct Hinv as [-> ->]. simpl. now left.
  - destruct (existsb (Nat.eqb t) ts) eqn:E; [|discriminate].
    intros [= <-]. simpl.
    destruct npt as [t0|].
    + destruct Hinv as [[-> ->]|[-> _]]; [|discriminate E].
      simpl in E. rewrite orb_false_r in E. apply Nat.eqb_eq in E. subst t0.
      simpl. rewrite Nat.eqb_refl. simpl. now right.
    + destruct Hinv as [-> _]. discriminate E.
  - destruct cy as [|n]; [discriminate|]. intros [= <-].
    destruct npt as [t0|]; [|destruct Hinv as [_ [=]]].
    destruct Hinv as [[_ [=]]|[-> [= ->]]].
    unfold settle_callback, schedulePoll; simpl.
    destruct en; destruct outcome; simpl; auto.
Qed.

(** As long as polling is not switched off while a cycle is pending, the
    scheduler stays single-flight. *)
Lemma single_flight_run es :
  forall s s',
    single_flight s -> no_disable_in_flight s es ->
    run s es = Some s' -> single_flight s'.
Proof.
  induction es as [|e es IH]; simpl; intros s s' Hinv Hq.
  - now intros [= <-].
  - destruct Hq as [Hoff Hq]. destruct (step s e) as [s1|] eqn:E;
      [|discriminate].
    apply (IH s1 s'); [|exact Hq].
    now apply (single_flight_step s e s1).
Qed.

(** C4, at the failing sequence.  Polling is enabled and the first timer
    fires; while that cycle is pending, polling is switched off and on
    again: the second [togglePolling(true)] arms a timer although the cycle
    has not settled, and when that timer fires two cycles are pending. *)
Theorem schedulePoll_not_single_flight :
  exists s4 s5,
    run init [Toggle true; TimerFires 1; Toggle false; Toggle true] = Some s4
    /\ cycles s4 = 1 /\ timers s4 = [2] /\ nextPollTimeout s4 = Some 2
    /\ step s4 (TimerFires 2) = Some s5
    /\ cycles s5 = 2.
Proof. do 2 eexists. repeat split. Qed.

(** C5, at the failing sequence.  After the sequence of C4 up to the second
    [togglePolling(true)] the pending cycle settles, which arms a third
    timer and forgets the second; switching polling off then clears the
    third timer only, the second stays armed and starts a cycle with polling
    disabled. *)
Theorem togglePolling_leaves_timer :
  exists s5 s6 s7,
    run init [Toggle true; TimerFires 1; Toggle false; Toggle true;
              CycleSettles (Normal tt)] = Some s5
    /\ timers s5 = [2; 3] /\ nextPollTimeout s5 = Some 3
    /\ step s5 (Toggle false) = Some s6
    /\ isPollingEnabled s6 = false /\ timers s6 = [2]
    /\ step s6 (TimerFires 2) = Some s7
    /\ isPollingEnabled s7 = false /\ cycles s7 = 1.
Proof. do 3 eexists. repeat split. Qed.

End SchedulerFacts.

(** ** The session manager *)
Section SessionFacts.
Import Session.

Lemma scan_none st parts :
  forall before,
    forallb (fun p => negb (is_session_part p)) parts = true ->
    scan st before parts = (st, Normal tt).
Proof.
  induction parts as [|part parts IH]; intros before H; simpl;
    [reflexivity|].
  simpl in H. apply andb_true_iff in H. destruct H as [Hp Hps].
  apply negb_true_iff in Hp. rewrite Hp. now apply IH.
Qed.

Lemma scan_found st skipped part after :
  forall before,
    forallb (fun p => negb (is_session_part p)) skipped = true ->
    is_session_part part = true ->
    scan st before (skipped ++ part :: after)
    = ({| session := VString "session_token";
          search := search st;
          search_assigned := Some (join "&" ((before ++ skipped) ++ after)) |},
       Throw redirecting).
Proof.
  induction skipped as [|p skipped IH]; intros before H Hpart;
    cbn [scan app].
  - assert (E : substring part 0 (String.length "session_token=")
                = "session_token") by now apply String.eqb_eq.
    now rewrite Hpart, E, app_nil_r.
  - simpl in H. apply andb_true_iff in H. destruct H as [Hp Hps].
    apply negb_true_iff in Hp. rewrite Hp.
    rewrite (IH (before ++ [p]) Hps Hpart).
    now rewrite <- (app_assoc before [p] skipped).
Qed.

(** The test of the loop passes over every part of the form
    [session_token=value]; it matches the bare name. *)
Lemma is_session_part_with_value v :
  is_session_part ("session_token=" ++ v) = false.
Proof. reflexivity. Qed.

Lemma is_session_part_bare : is_session_part "session_token" = true.
Proof. reflexivity. Qed.

(** Peels one character off both sides of an equation between a prefix of
    [part] and a string literal. *)
Ltac peel part H :=
  destruct part as [|? part]; [discriminate H|];
  simpl in H; injection H as -> H.

(** The bare name is the only part the test accepts. *)
Lemma is_session_part_exact part :
  is_session_part part = true <-> part = "session_token".
Proof.
  split; [|now intros ->].
  unfold is_session_part, substring. intros H.
  apply String.eqb_eq in H. simpl in H.
  do 13 peel part H.
  destruct part; [reflexivity | discriminate H].
Qed.

(** C6 (amended).  When already logged in, or when the scan of the query
    string matches no part, the call resolves and changes nothing.  When not
    logged in and the scan matches a part, a session is stored, exactly that
    part is taken out of the query string assigned to [location.search], the
    other parts keeping their order, and the call throws
    [Error('Redirecting to a URL without session')]: the redirection is a
    thrown error, not a returned value. *)
Theorem initUserSession_outcome :
  forall st,
    (isLoggedIn st = true -> _initUserSession st = (st, Normal tt))
    /\ (isLoggedIn st = false ->
        forallb (fun p => negb (is_session_part p))
          (split "&"%char (substring_from (search st) 1)) = true ->
        _initUserSession st = (st, Normal tt))
    /\ (isLoggedIn st = false ->
        forall skipped part after,
          split "&"%char (substring_from (search st) 1)
          = skipped ++ part :: after ->
          forallb (fun p => negb (is_session_part p)) skipped = true ->
          is_session_part part = true ->
          exists st',
            _initUserSession st = (st', Throw redirecting)
            /\ isLoggedIn st' = true
            /\ search_assigned st' = Some (join "&" (skipped ++ after))).
Proof.
  intros st. unfold _initUserSession. repeat split.
  - now intros ->.
  - intros -> H. now apply scan_none.
  - intros -> skipped part after -> Hs Hp.
    rewrite (scan_found st skipped part after [] Hs Hp).
    eexists. split; [reflexivity|]. split; reflexivity.
Qed.

(** The third case of C6 on [?a=1&session_token&b=2]. *)
Lemma initUserSession_outcome_witness :
  isLoggedIn page_bare = false
  /\ exists st',
       _initUserSession page_bare = (st', Throw redirecting)
       /\ isLoggedIn st' = true
       /\ search_assigned st' = Some "a=1&b=2".
Proof.
  split; [reflexivity|].
  exact (proj2 (proj2 (initUserSession_outcome page_bare)) eq_refl
           ["a=1"] "session_token" ["b=2"] eq_refl eq_refl eq_refl).
Defined.

(** C6 as stated fails on [?session_token=XYZ]: nobody is logged in and
    the query string has a [session_token] entry, yet no token is stored,
    nothing is assigned to [location.search] and the call resolves.  And
    where an entry is matched, on [?a=1&session_token&b=2], the outcome is
    an exception. *)
Lemma initUserSession_counterexample :
  isLoggedIn page_token = false
  /\ In "session_token=XYZ"
       (split "&"%char (substring_from (search page_token) 1))
  /\ _initUserSession page_token = (page_token, Normal tt)
  /\ snd (_initUserSession page_bare) = Throw redirecting.
Proof. repeat split. now left. Qed.

End SessionFacts.

(** ** The box registry *)
Section RegistryFacts.
Import Registry.

Lemma selectBox_out_of_range s index :
  List.length (items (boxes s)) <= index ->
  let s' := selectBox index s in
  configured s' = Some false
  /\ console_error s' = console_error s ++ ["Index out of range."]
  /\ requests s' = requests s /\ callbacks s' = callbacks s
  /\ url s' = url s /\ boxes s' = boxes s.
Proof.
  intros H. unfold selectBox. apply Nat.leb_le in H. rewrite H. simpl.
  repeat split.
Qed.

Lemma selectBox_in_range s index b :
  nth_error (items (boxes s)) index = Some b ->
  let s' := selectBox index s in
  url s' = Some (origin b)
  /\ ipaddrs s' = Some (addresses b)
  /\ requests s' = requests s ++ [SetProxyHost (hd_error (addresses b))]
  /\ callbacks s' = callbacks s ++ [AfterProxyHost b]
  /\ configured s' = configured s
  /\ console_error s' = console_error s.
Proof.
  intros H. unfold selectBox.
  assert (Hlt : index < List.length (items (boxes s)))
    by (apply nth_error_Some; congruence).
  apply Nat.leb_gt in Hlt. rewrite Hlt, H. simpl. repeat split.
Qed.

(** The port is asked for once the host is set; the flag is not touched. *)
Lemma run_callback_host this b s :
  let s' := fst (run_callback this (AfterProxyHost b) s) in
  snd (run_callback this (AfterProxyHost b) s) = Normal tt
  /\ requests s' = requests s ++ [SetProxyPort (port b)]
  /\ callbacks s' = callbacks s ++ [AfterProxyPort]
  /\ configured s' = configured s.
Proof. simpl. repeat split. Qed.

(** The inner function sets the flag only if it is called on the
    instance; called in any other way it throws and sets nothing. *)
Lemma run_callback_port this s :
  run_callback this AfterProxyPort s
  = match this with
    | ThisInstance => (fst (run_callback ThisInstance AfterProxyPort s),
                       Normal tt)
    | _ => (s, Throw (TypeError no_settings))
    end
  /\ configured (fst (run_callback ThisInstance AfterProxyPort s))
     = Some true.
Proof. destruct this; simpl; split; reflexivity. Qed.


Lemma watch_callback_frozen service s :
  frozen (boxes s) = true ->
  watch_callback "added" service s = (s, Throw (TypeError not_extensible)).
Proof. intros H. unfold watch_callback, push. now rewrite H. Qed.




End RegistryFacts.

(** ** The operation dispatcher *)
Section OperationFacts.
Import Operation.

(** C8.  [getOperationValueType] throws for an absent or empty kind (any
    falsy one: [undefined], [null], the empty string); for an object it
    returns the [typ] property as it is; for a string it returns ["Unit"]
    for ["TakeSnapshot"] and the string itself otherwise.  So
    ["TakeSnapshot"] gives ["Unit"], [{typ: "Binary"}] gives ["Binary"],
    ["OnOff"] gives ["OnOff"] and [undefined] throws. *)
Theorem getOperationValueType_cases :
  (forall kind, truthy kind = false ->
                getOperationValueType kind = Throw not_defined)
  /\ getOperationValueType VUndefined = Throw not_defined
  /\ getOperationValueType VNull = Throw not_defined
  /\ getOperationValueType (VString "") = Throw not_defined
  /\ (forall ref props,
        getOperationValueType (VObject ref props) = Normal (get props "typ"))
  /\ (forall s, s <> "" ->
        getOperationValueType (VString s)
        = Normal (VString (if String.eqb s "TakeSnapshot"
                           then "Unit" else s)))
  /\ getOperationValueType (VString "TakeSnapshot") = Normal (VString "Unit")
  /\ getOperationValueType (VObject 1 [("typ", VString "Binary")])
     = Normal (VString "Binary")
  /\ getOperationValueType (VString "OnOff") = Normal (VString "OnOff").
Proof.
  repeat split.
  - intros kind H. unfold getOperationValueType. now rewrite H.
  - intros s Hs. unfold getOperationValueType. simpl.
    apply String.eqb_neq in Hs. rewrite Hs. simpl.
    now destruct (String.eqb s "TakeSnapshot").
Qed.

(** C8 on the well-known kind ["OpenClosed"]. *)
Lemma getOperationValueType_cases_witness :
  "OpenClosed" <> ""
  /\ getOperationValueType (VString "OpenClosed")
     = Normal (VString "OpenClosed").
Proof.
  assert (H : "OpenClosed" <> "") by discriminate.
  split; [exact H|].
  exact (proj1 (proj2 (proj2 (proj2 (proj2 (proj2
           getOperationValueType_cases))))) "OpenClosed" H).
Defined.

End OperationFacts.

(* ================================================================== *)
(** * Part III: further properties of the code *)
(* ================================================================== *)

(** Splits on the condition of the first [if] of the goal. *)
Ltac case_if :=
  match goal with
  | |- context [if ?c then _ else _] => destruct c
  end.

(** ** More on subset-equality *)
Section SimilarMore.



(** X1.  [isSimilar] throws a [TypeError] exactly when its first argument
    has a key to look for and its second argument is not an object; in every
    other case it returns, with [true] exactly for subset-equal arguments.
    In particular a first argument that is [undefined], [null], a boolean or
    a number is similar to anything, [undefined] included. *)
Theorem isSimilar_outcome :
  forall objectA objectB,
    (keyless objectA = false -> is_object objectB = false ->
     isSimilar objectA objectB = Throw (TypeError in_non_object))
    /\ (keyless objectA || is_object objectB = true ->
        exists b, isSimilar objectA objectB = Normal b
                  /\ (b = true <-> subset_equal objectA objectB))
    /\ (match objectA with
        | VUndefined | VNull | VBool _ | VNumber _ | VNaN => True
        | VString _ | VObject _ _ => False
        end -> isSimilar objectA objectB = Normal true).
Proof.
  intros objectA objectB. repeat split.
  - intros Hk Hb. unfold isSimilar, keyless in *.
    destruct (enumerable objectA) as [|[k v] o]; [discriminate|].
    destruct objectB; try discriminate Hb; reflexivity.
  - apply isSimilar_decides.
  - intros H. apply isSimilar_no_keys.
    destruct objectA; simpl in *; tauto.
Qed.

(** X1 on [{a: 2}] against [undefined]. *)
Lemma isSimilar_outcome_witness :
  keyless (VObject 11 [("a", VNumber 2)]) = false
  /\ is_object VUndefined = false
  /\ isSimilar (VObject 11 [("a", VNumber 2)]) VUndefined
     = Throw (TypeError in_non_object).
Proof.
  split; [reflexivity|]. split; [reflexivity|].
  exact (proj1 (isSimilar_outcome (VObject 11 [("a", VNumber 2)]) VUndefined)
           eq_refl eq_refl).
Defined.

Lemma strict_eq_refl v : strict_eq v v = negb (is_nan v).
Proof.
  destruct v; simpl; try reflexivity.
  - now destruct b.
  - apply Z.eqb_refl.
  - apply String.eqb_refl.
  - apply Nat.eqb_refl.
Qed.

Lemma lookup_get o k : In k (keys o) -> lookup o k = Some (get o k).
Proof.
  intros H. unfold get. destruct (lookup o k) eqn:E; [reflexivity|].
  apply lookup_None in E. contradiction.
Qed.

(** X2.  An object is similar to itself unless one of its values is
    [NaN]: comparing a well-formed object with itself gives [false] exactly
    when it holds a [NaN]. *)
Theorem isSimilar_reflexive_but_nan :
  forall ref A,
    wf_object A = true ->
    isSimilar (VObject ref A) (VObject ref A)
    = Normal (negb (existsb is_nan (map snd A))).
Proof.
  intros ref A Hwf. apply distinct_NoDup in Hwf.
  rewrite isSimilar_objects. f_equal.
  assert (H : forall kv, In kv A ->
                         agrees A A (fst kv) = negb (is_nan (snd kv))).
  { intros [k v] Hin. simpl. unfold agrees.
    rewrite (In_lookup A k v Hwf Hin). unfold get.
    rewrite (In_lookup A k v Hwf Hin). apply strict_eq_refl. }
  unfold keys. clear Hwf.
  assert (G : forall l : object,
             (forall kv, In kv l ->
                         agrees A A (fst kv) = negb (is_nan (snd kv))) ->
             forallb (agrees A A) (map fst l)
             = negb (existsb is_nan (map snd l))).
  { induction l as [|kv l IH]; intros Hl; simpl; [reflexivity|].
    rewrite negb_orb, (Hl kv) by now left.
    f_equal. apply IH. intros kv' Hin. apply Hl. now right. }
  now apply G.
Qed.

(** X2 on [{a: NaN, b: 1}]. *)
Lemma isSimilar_reflexive_but_nan_witness :
  wf_object [("a", VNaN); ("b", VNumber 1)] = true
  /\ isSimilar (VObject 3 [("a", VNaN); ("b", VNumber 1)])
               (VObject 3 [("a", VNaN); ("b", VNumber 1)])
     = Normal false.
Proof.
  split; [reflexivity|].
  exact (isSimilar_reflexive_but_nan 3 [("a", VNaN); ("b", VNumber 1)]
           eq_refl).
Defined.



End SimilarMore.

(** ** More on a reconciliation cycle *)
Section CycleMore.

Lemma reduce_callback_cases w hasNew f :
  (exists e, reduce_callback w hasNew f = (w, Throw e))
  \/ reduce_callback w hasNew f = (w, Normal hasNew)
  \/ (exists c,
        find (same_id f) (stored w) = Some c
        /\ reduce_callback w hasNew f
           = (setService (assign c f)
                (dispatchEvent (ServiceStateChange (assign c f))
                   (assign_stored f w)), Normal hasNew))
  \/ (find (same_id f) (stored w) = None
      /\ reduce_callback w hasNew f
         = (setService f (dispatchEvent (ServiceStateChange f) w),
            Normal true)).
Proof.
  destruct (find (same_id f) (stored w)) as [c|] eqn:Hfind.
  - destruct (isSimilar (get f "state") (get c "state")) as [[|]|e] eqn:Hsim.
    + right. left. now apply (reduce_callback_similar w hasNew f c).
    + right. right. left. exists c. split; [reflexivity|].
      now apply reduce_callback_changed.
    + left. exists e. unfold reduce_callback. now rewrite Hfind, Hsim.
  - right. right. right. split; [reflexivity|].
    now apply reduce_callback_new.
Qed.



Lemma reduce_alike fetched :
  forall w hasNew,
    forallb wf_object fetched = true ->
    Forall2 alike (stored w) (stored (fst (reduce w hasNew fetched))).
Proof.
  induction fetched as [|f fetched IH]; intros w hasNew Hwf; simpl.
  - apply alike_refl.
  - simpl in Hwf. apply andb_true_iff in Hwf. destruct Hwf as [Hwf Hwfs].
    destruct (reduce_callback_cases w hasNew f)
      as [[e H]|[H|[(c & _ & H)|[_ H]]]]; rewrite H.
    + apply alike_refl.
    + now apply IH.
    + eapply alike_trans; [|now apply IH]. simpl.
      now apply mutate_found_alike.
    + eapply alike_trans; [|now apply IH]. simpl. apply alike_refl.
Qed.

(** X5.  A cycle, one that throws included, never adds a record to the
    array of cached services nor removes one, and never changes the id of a
    cached record: place by place the array holds records whose ids compare
    alike with every value.  So a service new to the cache stays unknown to
    the array for the rest of the cycle. *)
Theorem reconcile_keeps_cached_array :
  forall storedServices fetchedServices,
    forallb wf_object fetchedServices = true ->
    Forall2 alike storedServices
      (stored (fst (reconcile storedServices fetchedServices)))
    /\ List.length (stored (fst (reconcile storedServices fetchedServices)))
       = List.length storedServices
    /\ forall service,
         is_new (stored (fst (reconcile storedServices fetchedServices)))
           service
         = is_new storedServices service.
Proof.
  intros storedServices fetchedServices Hwf.
  assert (H : Forall2 alike storedServices
                (stored (fst (reconcile storedServices fetchedServices)))).
  { unfold reconcile.
    set (w0 := {| stored := storedServices; dispatched := [];
                  db_setService := [] |}).
    pose proof (reduce_alike fetchedServices w0 false Hwf) as Hal.
    destruct (reduce w0 false fetchedServices) as [w [h|e]]; simpl in *;
      [|exact Hal].
    now destruct (h || _). }
  split; [exact H|]. split.
  - symmetry. now apply alike_length.
  - intros service. symmetry. now apply alike_is_new.
Qed.

(** X5 with [{id: 1, state: {a: 1}}] cached and [{id: 1, state: {a: 2}}],
    [{id: 2}] fetched. *)
Lemma reconcile_keeps_cached_array_witness :
  forallb wf_object [fetched1; fetched2] = true
  /\ List.length (stored (fst (reconcile [cached1] [fetched1; fetched2])))
     = 1.
Proof.
  split; [reflexivity|].
  exact (proj1 (proj2 (reconcile_keeps_cached_array [cached1]
                         [fetched1; fetched2] eq_refl))).
Defined.

End CycleMore.

(** ** More on the polling scheduler *)
Section SchedulerMore.
Import Scheduler.

Lemma single_flight_init : single_flight init.
Proof. split; reflexivity. Qed.

(** X7.  Starting from the constructor, on every sequence of events in
    which polling is never switched off while a cycle is pending, at most
    one cycle is pending at any time, at most one timer is armed, and no
    timer is armed while a cycle is pending. *)
Theorem scheduler_single_flight :
  forall es s,
    no_disable_in_flight init es ->
    run init es = Some s ->
    cycles s <= 1
    /\ List.length (timers s) + cycles s <= 1
    /\ (nextPollTimeout s = None -> timers s = [] /\ cycles s = 0).
Proof.
  intros es s Hq Hrun.
  pose proof (single_flight_run es init s single_flight_init Hq Hrun) as H.
  unfold single_flight in H.
  destruct (nextPollTimeout s) as [t|].
  - destruct H as [[-> ->]|[-> ->]]; simpl; repeat split; try lia;
      discriminate.
  - destruct H as [-> ->]. simpl. repeat split; lia.
Qed.

(** X7 on: enable, the timer fires, the cycle fails, the next timer
    fires, the cycle succeeds, disable. *)
Lemma scheduler_single_flight_witness :
  no_disable_in_flight init
    [Toggle true; TimerFires 1; CycleSettles (Throw (Error "offline"));
     TimerFires 2; CycleSettles (Normal tt); Toggle false]
  /\ exists s,
       run init
         [Toggle true; TimerFires 1; CycleSettles (Throw (Error "offline"));
          TimerFires 2; CycleSettles (Normal tt); Toggle false] = Some s
       /\ cycles s <= 1.
Proof.
  assert (Hq : no_disable_in_flight init
    [Toggle true; TimerFires 1; CycleSettles (Throw (Error "offline"));
     TimerFires 2; CycleSettles (Normal tt); Toggle false]).
  { simpl. repeat split; try discriminate. }
  split; [exact Hq|].
  eexists. split; [reflexivity|].
  exact (proj1 (scheduler_single_flight _ _ Hq eq_refl)).
Defined.

(** X8.  Asking twice is asking once: a second [schedulePoll()] right
    after the first changes nothing, and so does a second
    [togglePolling(b)] with the same flag, whatever the state. *)
Theorem togglePolling_idempotent :
  forall s,
    schedulePoll (schedulePoll s) = schedulePoll s
    /\ forall pollingEnabled,
         togglePolling pollingEnabled (togglePolling pollingEnabled s)
         = togglePolling pollingEnabled s.
Proof.
  intros [en npt ts nt cy co]. split.
  - unfold schedulePoll; simpl. destruct en; simpl; [|reflexivity].
    destruct npt; reflexivity.
  - intros [|]; unfold togglePolling, schedulePoll; simpl.
    + destruct npt; reflexivity.
    + reflexivity.
Qed.

(** X9.  When a cycle settles, the pending handle is forgotten and a new
    timer is armed exactly if polling is enabled at that moment; whether the
    cycle succeeded or failed changes nothing but one line on the console,
    and the failure goes no further. *)
Theorem settle_callback_outcome :
  forall outcome s,
    (isPollingEnabled s = true ->
     nextPollTimeout (settle_callback outcome s) = Some (next_timer s)
     /\ timers (settle_callback outcome s) = timers s ++ [next_timer s])
    /\ (isPollingEnabled s = false ->
        nextPollTimeout (settle_callback outcome s) = None
        /\ timers (settle_callback outcome s) = timers s)
    /\ isPollingEnabled (settle_callback outcome s) = isPollingEnabled s
    /\ cycles (settle_callback outcome s) = cycles s
    /\ console (settle_callback outcome s)
       = console s
         ++ match outcome with
            | Normal _ => []
            | Throw _ =>
                ["Polling has failed, scheduling one more attempt: "]
            end.
Proof.
  intros outcome [[|] npt ts nt cy co]; destruct outcome; simpl;
    repeat split; try discriminate; now rewrite ?app_nil_r.
Qed.

(** X9 on a failed cycle of an enabled scheduler. *)
Lemma settle_callback_outcome_witness :
  isPollingEnabled (togglePolling true init) = true
  /\ nextPollTimeout
       (settle_callback (Throw (Error "offline")) (togglePolling true init))
     = Some 2.
Proof.
  split; [reflexivity|].
  exact (proj1 (proj1 (settle_callback_outcome (Throw (Error "offline"))
                         (togglePolling true init)) eq_refl)).
Defined.

Lemma tracked_step s e s' :
  Liveness.tracked s -> step s e = Some s' -> Liveness.tracked s'.
Proof.
  destruct s as [en npt ts nt cy co]. unfold Liveness.tracked; simpl.
  intros (Hon & Hoff & Hh). destruct e as [[|]| |t|outcome]; simpl.
  - intros [= <-]. unfold schedulePoll; simpl.
    destruct npt as [t|]; simpl.
    + repeat split; try discriminate. intros _. apply Hh. discriminate.
    + repeat split; try discriminate. intros _. left.
      now destruct ts.
  - intros [= <-]. simpl. repeat split; congruence.
  - intros [= <-]. unfold schedulePoll; simpl.
    destruct en; simpl; [|repeat split; assumption].
    destruct npt as [t|]; simpl; [repeat split; assumption|].
    now destruct (Hon eq_refl).
  - destruct (existsb (Nat.eqb t) ts); [|discriminate].
    intros [= <-]. simpl. repeat split; try assumption.
    intros _. right. lia.
  - destruct cy as [|n]; [discriminate|]. intros [= <-].
    unfold settle_callback, schedulePoll; simpl.
    destruct en; simpl; repeat split; try discriminate; try congruence.
    intros _. left. now destruct ts.
Qed.

Lemma tracked_run es :
  forall s s',
    Liveness.tracked s -> run s es = Some s' -> Liveness.tracked s'.
Proof.
  induction es as [|e es IH]; simpl; intros s s' H.
  - now intros [= <-].
  - destruct (step s e) as [s1|] eqn:E; [|discriminate].
    apply IH. now apply (tracked_step s e s1).
Qed.

(** X6.  Whatever happens to the scheduler, switching polling off while
    a cycle is pending included, it is never left stalled: in every state
    it can reach, when polling is enabled a timer is armed or a cycle is
    pending, and when polling is disabled the field holds no handle. *)
Theorem scheduler_never_stalls :
  forall es s,
    run init es = Some s ->
    (isPollingEnabled s = true -> timers s <> [] \/ 0 < cycles s)
    /\ (isPollingEnabled s = false -> nextPollTimeout s = None).
Proof.
  intros es s Hrun.
  assert (H0 : Liveness.tracked init).
  { unfold Liveness.tracked; simpl. repeat split; congruence. }
  destruct (tracked_run es init s H0 Hrun) as (Hon & Hoff & Hh).
  split; [|exact Hoff]. intros Hen. apply Hh. now apply Hon.
Qed.

(** X6 on the sequence at which single flight fails. *)
Lemma scheduler_never_stalls_witness :
  exists s,
    run init [Toggle true; TimerFires 1; Toggle false; Toggle true;
              CycleSettles (Normal tt)] = Some s
    /\ isPollingEnabled s = true
    /\ (timers s <> [] \/ 0 < cycles s).
Proof.
  eexists. split; [reflexivity|]. split; [reflexivity|].
  refine (proj1 (scheduler_never_stalls
                   [Toggle true; TimerFires 1; Toggle false; Toggle true;
                    CycleSettles (Normal tt)] _ eq_refl) eq_refl).
Defined.

End SchedulerMore.

(** ** More on the session *)
Section SessionMore.
Import Session.

Lemma scan_thrown st parts :
  forall before st' e,
    scan st before parts = (st', Throw e) ->
    e = redirecting
    /\ session st' = VString "session_token"
    /\ search st' = search st
    /\ exists skipped after,
         parts = skipped ++ "session_token" :: after
         /\ forallb (fun p => negb (is_session_part p)) skipped = true
         /\ search_assigned st'
            = Some (join "&" ((before ++ skipped) ++ after)).
Proof.
  induction parts as [|part parts IH]; intros before st' e; cbn [scan].
  - discriminate.
  - destruct (is_session_part part) eqn:Hp.
    + pose proof Hp as Hexact. apply is_session_part_exact in Hexact.
      subst part. intros [= <- <-]. simpl. repeat split.
      exists [], parts. now rewrite app_nil_r.
    + intros H.
      destruct (IH _ _ _ H) as (-> & Hs & Hq & sk & af & -> & Hn & Ha).
      repeat split; try assumption.
      exists (part :: sk), af. simpl. rewrite Hp, Hn. repeat split.
      now rewrite Ha, <- (app_assoc before [part] sk).
Qed.

(** X10.  The scan of the query string matches the bare name
    [session_token] and nothing else.  So a page whose query string has no
    part equal to [session_token], and in particular one whose token carries
    a value, resolves and changes nothing; and whenever the call throws to
    redirect, the session it has stored is the string ["session_token"]
    itself. *)
Theorem initUserSession_bare_name_only :
  forall st,
    (isLoggedIn st = false ->
     ~ In "session_token"
         (split "&"%char (substring_from (search st) 1)) ->
     _initUserSession st = (st, Normal tt))
    /\ (forall st' e,
          _initUserSession st = (st', Throw e) ->
          e = redirecting
          /\ session st' = VString "session_token"
          /\ isLoggedIn st = false
          /\ In "session_token"
               (split "&"%char (substring_from (search st) 1))).
Proof.
  intros st. unfold _initUserSession. split.
  - intros -> Hnot. apply scan_none. apply forallb_forall.
    intros p Hp. apply negb_true_iff.
    destruct (is_session_part p) eqn:E; [|reflexivity].
    apply is_session_part_exact in E. subst p. contradiction.
  - intros st' e. destruct (isLoggedIn st); [discriminate|].
    intros H. destruct (scan_thrown _ _ _ _ _ H)
      as (-> & Hs & _ & sk & af & Heq & _).
    repeat split; try assumption.
    rewrite Heq. apply in_or_app. right. now left.
Qed.

(** X10 on [?session_token=XYZ]. *)
Lemma initUserSession_bare_name_only_witness :
  isLoggedIn page_token = false
  /\ ~ In "session_token"
         (split "&"%char (substring_from (search page_token) 1))
  /\ _initUserSession page_token = (page_token, Normal tt).
Proof.
  assert (H : ~ In "session_token"
                (split "&"%char (substring_from (search page_token) 1))).
  { simpl. intros [E|[]]. discriminate E. }
  split; [reflexivity|]. split; [exact H|].
  exact (proj1 (initUserSession_bare_name_only page_token) eq_refl H).
Defined.

End SessionMore.

(** ** Splitting and joining the query string *)
Section QueryFacts.
Import Session.

Lemma split_nonempty sep s : split sep s <> [].
Proof.
  destruct s as [|c s]; simpl; [discriminate|].
  destruct (Ascii.eqb c sep); [discriminate|].
  destruct (split sep s); discriminate.
Qed.

Lemma join_cons part parts :
  parts <> [] ->
  join "&" (part :: parts) = (part ++ "&" ++ join "&" parts)%string.
Proof. destruct parts; [congruence | reflexivity]. Qed.

Lemma join_split s : join "&" (split "&"%char s) = s.
Proof.
  induction s as [|c s IH]; [reflexivity|]. simpl.
  destruct (Ascii.eqb_spec c "&"%char) as [->|Hne].
  - rewrite join_cons by apply split_nonempty. simpl. now rewrite IH.
  - destruct (split "&"%char s) as [|p ps] eqn:E.
    + now destruct (split_nonempty "&"%char s).
    + destruct ps as [|q ps]; simpl in *; now rewrite <- IH.
Qed.

Lemma split_no_amp s : forallb no_amp (split "&"%char s) = true.
Proof.
  induction s as [|c s IH]; [reflexivity|]. simpl.
  destruct (Ascii.eqb c "&"%char) eqn:E; simpl; [exact IH|].
  destruct (split "&"%char s) as [|p ps]; simpl in *; now rewrite ?E.
Qed.

Lemma split_one part : no_amp part = true -> split "&"%char part = [part].
Proof.
  induction part as [|c part IH]; [reflexivity|]. simpl.
  intros H. apply andb_true_iff in H. destruct H as [Hc Hp].
  apply negb_true_iff in Hc. now rewrite Hc, (IH Hp).
Qed.

Lemma split_app part rest :
  no_amp part = true ->
  split "&"%char (part ++ "&" ++ rest)%string = part :: split "&"%char rest.
Proof.
  induction part as [|c part IH]; [reflexivity|]. simpl.
  intros H. apply andb_true_iff in H. destruct H as [Hc Hp].
  apply negb_true_iff in Hc. rewrite Hc. simpl in IH. now rewrite (IH Hp).
Qed.

Lemma split_join parts :
  parts <> [] -> forallb no_amp parts = true ->
  split "&"%char (join "&" parts) = parts.
Proof.
  induction parts as [|p parts IH]; [congruence|]. intros _ H.
  simpl in H. apply andb_true_iff in H. destruct H as [Hp Hps].
  destruct parts as [|q parts].
  - now apply split_one.
  - rewrite join_cons by discriminate.
    rewrite (split_app p _ Hp). f_equal. apply IH; [discriminate | exact Hps].
Qed.

(** X11.  Whenever the call throws to redirect, the query string it has
    assigned to [location.search] reads back, split at [&], as exactly the
    other parts of the original query string, in their order; it is empty
    when [session_token] was the only part. *)
Theorem initUserSession_rebuilds_query :
  forall st st' e,
    _initUserSession st = (st', Throw e) ->
    exists skipped after query,
      split "&"%char (substring_from (search st) 1)
      = skipped ++ "session_token" :: after
      /\ search_assigned st' = Some query
      /\ (skipped ++ after <> [] ->
          split "&"%char query = skipped ++ after)
      /\ (skipped ++ after = [] -> query = "").
Proof.
  intros st st' e. unfold _initUserSession.
  destruct (isLoggedIn st); [discriminate|]. intros H.
  destruct (scan_thrown _ _ _ _ _ H) as (_ & _ & _ & sk & af & Heq & _ & Ha).
  exists sk, af, (join "&" (sk ++ af)). simpl in Ha.
  repeat split; try assumption.
  - intros Hne. apply split_join; [exact Hne|].
    pose proof (split_no_amp (substring_from (search st) 1)) as Hall.
    rewrite Heq, forallb_app in Hall. simpl in Hall.
    apply andb_true_iff in Hall. destruct Hall as [H1 H2].
    rewrite forallb_app, H1. exact H2.
  - now intros ->.
Qed.

(** X11 on [?a=1&session_token&b=2]. *)
Lemma initUserSession_rebuilds_query_witness :
  _initUserSession page_bare
  = (fst (_initUserSession page_bare), Throw redirecting)
  /\ exists skipped after query,
       split "&"%char (substring_from (search page_bare) 1)
       = skipped ++ "session_token" :: after
       /\ search_assigned (fst (_initUserSession page_bare)) = Some query
       /\ (skipped ++ after <> [] ->
           split "&"%char query = skipped ++ after).
Proof.
  split; [reflexivity|].
  destruct (initUserSession_rebuilds_query page_bare _ redirecting eq_refl)
    as (sk & af & q & Heq & Hq & Hs & _).
  exists sk, af, q. repeat split; assumption.
Defined.

End QueryFacts.

(** ** More on the box registry *)
Section RegistryMore.
Import Registry Discovery.

Lemma step_untouched s e : untouched s -> untouched (step s e).
Proof.
  intros (Hb & Hr & Hc & Hu & Hi & Hf).
  destruct e as [action service|index|this]; simpl.
  - unfold watch_callback, push. rewrite Hb. simpl.
    destruct (String.eqb action "added"); simpl; repeat split; assumption.
  - unfold selectBox. rewrite Hb. simpl.
    repeat split; try assumption. discriminate.
  - unfold complete. rewrite Hc. repeat split; assumption.
Qed.

Lemma run_untouched es : forall s, untouched s -> untouched (run s es).
Proof.
  induction es as [|e es IH]; intros s H; simpl; [exact H|].
  apply IH. now apply step_untouched.
Qed.

(** X12.  On the instance the constructor builds, whatever services the
    plugin reports, whatever [selectBox] calls are made and whatever the
    plugin completes: the list of boxes stays empty and frozen, every
    [added] event throws at the append, no request is ever made to the
    plugin, no origin is ever stored and the "configured" flag is never
    [true]. *)
Theorem registry_never_populated :
  forall es,
    boxes (run constructor es) = {| frozen := true; items := [] |}
    /\ requests (run constructor es) = []
    /\ callbacks (run constructor es) = []
    /\ url (run constructor es) = None
    /\ ipaddrs (run constructor es) = None
    /\ configured (run constructor es) <> Some true
    /\ forall service,
         watch_callback "added" service (run constructor es)
         = (run constructor es, Throw (TypeError not_extensible)).
Proof.
  intros es.
  destruct (run_untouched es constructor) as (Hb & Hr & Hc & Hu & Hi & Hf).
  { repeat split; discriminate. }
  repeat split; try assumption.
  intros service. apply watch_callback_frozen. now rewrite Hb.
Qed.

(** X13.  [selectBox(index)] with [index] at or past the end of the list
    sets "configured" to [false], writes one line on the console and touches
    neither the plugin nor the stored origin.  With [index] inside the list
    it stores the origin and the addresses of that box, makes exactly one
    request to the plugin, for the first address as host, and leaves
    "configured" as it was: [selectBox] itself never sets the flag to
    [true]. *)
Theorem selectBox_bounds :
  forall s index,
    (List.length (items (boxes s)) <= index ->
     configured (selectBox index s) = Some false
     /\ console_error (selectBox index s)
        = console_error s ++ ["Index out of range."]
     /\ requests (selectBox index s) = requests s
     /\ callbacks (selectBox index s) = callbacks s
     /\ url (selectBox index s) = url s
     /\ ipaddrs (selectBox index s) = ipaddrs s)
    /\ (index < List.length (items (boxes s)) ->
        exists b,
          nth_error (items (boxes s)) index = Some b
          /\ url (selectBox index s) = Some (origin b)
          /\ ipaddrs (selectBox index s) = Some (addresses b)
          /\ requests (selectBox index s)
             = requests s ++ [SetProxyHost (hd_error (addresses b))]
          /\ callbacks (selectBox index s)
             = callbacks s ++ [AfterProxyHost b]
          /\ configured (selectBox index s) = configured s
          /\ console_error (selectBox index s) = console_error s)
    /\ boxes (selectBox index s) = boxes s.
Proof.
  intros s index. split; [|split].
  - intros Hle. unfold selectBox. apply Nat.leb_le in Hle. rewrite Hle.
    simpl. repeat split.
  - intros Hlt. destruct (nth_error (items (boxes s)) index) as [b|] eqn:E.
    + exists b. split; [reflexivity|]. now apply selectBox_in_range.
    + apply nth_error_None in E. lia.
  - unfold selectBox.
    destruct (Nat.leb (List.length (items (boxes s))) index);
      [reflexivity|].
    destruct (nth_error (items (boxes s)) index); reflexivity.
Qed.

(** X13 with the one box of [registry1], at index 0 and at index 1. *)
Lemma selectBox_bounds_witness :
  List.length (items (boxes registry1)) <= 1
  /\ configured (selectBox 1 registry1) = Some false
  /\ 0 < List.length (items (boxes registry1))
  /\ url (selectBox 0 registry1) = Some "https://foxbox.local:3000".
Proof.
  assert (H1 : List.length (items (boxes registry1)) <= 1) by (simpl; lia).
  assert (H0 : 0 < List.length (items (boxes registry1))) by (simpl; lia).
  split; [exact H1|]. split.
  - exact (proj1 (proj1 (selectBox_bounds registry1 1) H1)).
  - split; [exact H0|].
    destruct (proj1 (proj2 (selectBox_bounds registry1 0)) H0)
      as (b & Hb & Hu & _).
    injection Hb as <-. exact Hu.
Defined.

End RegistryMore.

(** ** Logging in and out *)
Section AccountFacts.
Import Session Account.

Lemma decode_encoded c rest :
  decode ((if unreserved c then String c EmptyString else percent c)
          ++ rest)%string
  = String c (decode rest).
Proof.
  destruct c as [[] [] [] [] [] [] [] []]; reflexivity.
Qed.

Lemma decode_encodeURIComponent s : decode (encodeURIComponent s) = s.
Proof.
  induction s as [|c s IH]; [reflexivity|].
  cbn [encodeURIComponent]. now rewrite decode_encoded, IH.
Qed.

Lemma encoded_chars c :
  forallb encoded_char
    (list_ascii_of_string
       (if unreserved c then String c EmptyString else percent c)) = true.
Proof.
  destruct c as [[] [] [] [] [] [] [] []]; reflexivity.
Qed.

Lemma list_ascii_app s t :
  list_ascii_of_string (s ++ t)%string
  = list_ascii_of_string s ++ list_ascii_of_string t.
Proof. induction s as [|c s IH]; simpl; [reflexivity | now rewrite IH]. Qed.

Lemma string_app_cancel (a b c : string) :
  (a ++ b = a ++ c)%string -> b = c.
Proof.
  induction a as [|x a IH]; simpl; intros E; [exact E|].
  injection E as E. now apply IH.
Qed.

(** X14.  [login()] does nothing for a user who is logged in.  For a user
    who is logged out, and so after every [logout()], it replaces the
    location by the origin followed by [/?redirect_url=] and the encoded
    address of the page; the encoded address holds nothing but letters,
    digits, [- _ . ! ~ * ' ( )] and [%], so no [&], [=], [#] or [?] of the
    page address can cut the parameter short, and two different page
    addresses never give the same login address. *)
Theorem login_redirects_once :
  forall st origin href,
    (isLoggedIn st = true -> login st origin href = None)
    /\ login (logout st) origin href
       = Some (origin ++ "/?redirect_url=" ++ encodeURIComponent href)%string
    /\ forallb encoded_char
         (list_ascii_of_string (encodeURIComponent href)) = true
    /\ (forall href',
          login (logout st) origin href = login (logout st) origin href' ->
          href = href').
Proof.
  intros st origin href. repeat split.
  - unfold login. now intros ->.
  - induction href as [|c href IH]; [reflexivity|].
    cbn [encodeURIComponent].
    now rewrite list_ascii_app, forallb_app, encoded_chars, IH.
  - intros href'. unfold login, logout, isLoggedIn. simpl.
    intros [= H]. apply string_app_cancel in H.
    apply (string_app_cancel "/?redirect_url=") in H.
    apply (f_equal decode) in H.
    now rewrite !decode_encodeURIComponent in H.
Qed.

(** X14 for a user with session ["t"]. *)
Lemma login_redirects_once_witness :
  isLoggedIn {| session := VString "t"; search := "";
                search_assigned := None |} = true
  /\ login {| session := VString "t"; search := "";
              search_assigned := None |}
       "https://box.local:3000" "http://localhost:8000/?a=1&b=2#top"
     = None
  /\ login (logout {| session := VString "t"; search := "";
                      search_assigned := None |})
       "https://box.local:3000" "http://localhost:8000/?a=1&b=2#top"
     = Some ("https://box.local:3000/?redirect_url="
             ++ "http%3A%2F%2Flocalhost%3A8000%2F%3Fa%3D1%26b%3D2%23top"
            )%string.
Proof.
  split; [reflexivity|]. split.
  - exact (proj1 (login_redirects_once
                    {| session := VString "t"; search := "";
                       search_assigned := None |}
                    "https://box.local:3000"
                    "http://localhost:8000/?a=1&b=2#top") eq_refl).
  - reflexivity.
Defined.

End AccountFacts.

(** ** Reading and writing through the box *)
Section RequestsFacts.
Import Operation Requests.

Lemma strict_eq_string v s : strict_eq v (VString s) = true -> v = VString s.
Proof.
  destruct v; simpl; try discriminate. intros H.
  apply String.eqb_eq in H. now subst.
Qed.

(** X15.  [setServiceState] resolves exactly when the response is an
    object whose [result] is ['success'], and rejects, always with the same
    error, for every other response; when the request itself fails its
    promise is never settled, whereas [getServiceState] passes that failure
    on, and otherwise resolves with any truthy response and rejects a falsy
    one. *)
Theorem setServiceState_settles :
  forall fetched,
    (setServiceState fetched = Resolved tt
     <-> exists ref props,
           fetched = Normal (VObject ref props)
           /\ get props "result" = VString "success")
    /\ (setServiceState fetched = Pending <-> exists e, fetched = Throw e)
    /\ (forall e, setServiceState fetched = Rejected e -> e = failed)
    /\ (forall e, fetched = Throw e -> getServiceState fetched = Rejected e)
    /\ (forall res,
          fetched = Normal res ->
          getServiceState fetched
          = if truthy res then Resolved res else Rejected failed).
Proof.
  intros fetched. repeat split.
  - destruct fetched as [res|e]; simpl; [|discriminate].
    destruct (truthy res) eqn:Ht; simpl; [|discriminate].
    destruct res as [| | | | | |ref props]; simpl; try discriminate.
    destruct (truthy (get props "result")) eqn:Hr; simpl; [|discriminate].
    destruct (strict_eq (get props "result") (VString "success")) eqn:Hs;
      simpl; [|discriminate].
    intros _. exists ref, props. split; [reflexivity|].
    now apply strict_eq_string.
  - intros (ref & props & -> & Hr). simpl. now rewrite Hr.
  - destruct fetched as [res|e]; simpl; [|intros _; now exists e].
    destruct res; simpl; try discriminate;
      repeat (case_if; simpl; try discriminate).
  - intros [e ->]. reflexivity.
  - intros e. destruct fetched as [res|e']; simpl; [|discriminate].
    destruct res; simpl; try (now intros [= <-]);
      repeat (case_if; simpl; try discriminate; try (now intros [= <-])).
  - now intros e ->.
  - intros res ->. simpl. now destruct (truthy res).
Qed.

(** X15 on the response [{result: 'success'}]. *)
Lemma setServiceState_settles_witness :
  setServiceState (Normal (VObject 1 [("result", VString "success")]))
  = Resolved tt.
Proof.
  apply (proj1 (setServiceState_settles
                  (Normal (VObject 1 [("result", VString "success")])))).
  exists 1, [("result", VString "success")]. split; reflexivity.
Defined.

(** X16.  The two operations agree one way only.  Whenever
    [performGetOperation] asks for a blob, [performSetOperation] frames the
    value under ["Binary"]; and whenever [performSetOperation] sends a
    request, [performGetOperation] sends one too, for the same operation
    id.  But the well-known string kind ["Binary"] is framed as ["Binary"]
    on writing and read as JSON, and an empty kind, for which writing throws
    before any request, is read with a JSON request. *)
Theorem perform_operations_agree :
  forall n operation v,
    (forall rq,
        performGetOperation n operation = Normal rq ->
        via rq = FetchBlob "image/jpeg" ->
        performSetOperation n operation v
        = Normal {| via := FetchJSON;
                    url := channels n "set";
                    method := "PUT";
                    selector := get operation "id";
                    framed := Some (VString "Binary", v) |})
    /\ (forall rq,
          performSetOperation n operation v = Normal rq ->
          exists rq',
            performGetOperation n operation = Normal rq'
            /\ selector rq' = selector rq
            /\ method rq' = method rq
            /\ url rq' = channels n "get")
    /\ (get operation "kind" = VString "Binary" ->
        performSetOperation n operation v
        = Normal {| via := FetchJSON;
                    url := channels n "set";
                    method := "PUT";
                    selector := get operation "id";
                    framed := Some (VString "Binary", v) |}
        /\ performGetOperation n operation
           = Normal {| via := FetchJSON;
                       url := channels n "get";
                       method := "PUT";
                       selector := get operation "id";
                       framed := None |})
    /\ (get operation "kind" = VString "" ->
        performSetOperation n operation v = Throw not_defined
        /\ performGetOperation n operation
           = Normal {| via := FetchJSON;
                       url := channels n "get";
                       method := "PUT";
                       selector := get operation "id";
                       framed := None |}).
Proof.
  intros n operation v. unfold performGetOperation, performSetOperation.
  split; [|split; [|split]].
  - intros rq.
    destruct (get operation "kind") as [| |b|z| |s|ref props]; simpl;
      try discriminate; try (intros [= <-]; discriminate).
    destruct (strict_eq (get props "typ") (VString "Binary")) eqn:E;
      [|intros [= <-]; discriminate].
    intros _ _. apply strict_eq_string in E.
    unfold getOperationValueType. simpl. now rewrite E.
  - intros rq. unfold getOperationValueType.
    destruct (get operation "kind") as [| |b|z| |s|ref props]; simpl;
      try discriminate.
    + destruct b; simpl; [|discriminate]. intros [= <-].
      eexists. repeat split.
    + destruct (Z.eqb z 0); simpl; [discriminate|]. intros [= <-].
      eexists. repeat split.
    + destruct (String.eqb s ""); simpl; [discriminate|].
      destruct (String.eqb s "TakeSnapshot"); intros [= <-];
        eexists; repeat split.
    + intros [= <-].
      destruct (strict_eq (get props "typ") (VString "Binary"));
        eexists; repeat split.
  - intros ->. split; reflexivity.
  - intros ->. split; reflexivity.
Qed.

(** X16 on an operation of kind [{typ: 'Binary'}]. *)
Lemma perform_operations_agree_witness :
  exists rq,
    performGetOperation
      {| origin := "https://box.local:3000"; apiVersion := "1" |}
      [("id", VString "camera");
       ("kind", VObject 1 [("typ", VString "Binary")])]
    = Normal rq
    /\ via rq = FetchBlob "image/jpeg"
    /\ performSetOperation
         {| origin := "https://box.local:3000"; apiVersion := "1" |}
         [("id", VString "camera");
          ("kind", VObject 1 [("typ", VString "Binary")])] VNull
       = Normal {| via := FetchJSON;
                   url := "https://box.local:3000/api/v1/channels/set";
                   method := "PUT";
                   selector := VString "camera";
                   framed := Some (VString "Binary", VNull) |}.
Proof.
  eexists. split; [reflexivity|]. split; [reflexivity|].
  exact (proj1 (perform_operations_agree
                  {| origin := "https://box.local:3000"; apiVersion := "1" |}
                  [("id", VString "camera");
                   ("kind", VObject 1 [("typ", VString "Binary")])] VNull)
           _ eq_refl eq_refl).
Defined.

End RequestsFacts.

(** ** The earlier client *)
Section LegacyFacts.
Import Requests Legacy.

Lemma step_dead s e :
  timeout s = false -> fetching s = false -> step s e = None.
Proof. intros Ht Hf. destruct e; simpl; now rewrite ?Ht, ?Hf. Qed.

Lemma run_dead s es s' :
  timeout s = false -> fetching s = false ->
  run s es = Some s' -> es = [] /\ s' = s.
Proof.
  intros Ht Hf. destruct es as [|e es]; simpl.
  - now intros [= <-].
  - now rewrite (step_dead s e Ht Hf).
Qed.

(** A settled promise stays as it is. *)
Lemma step_settled s e s' o :
  settled s = Some o -> step s e = Some s' -> settled s' = Some o.
Proof.
  intros Hs. destruct e as [|res|e]; simpl.
  - destruct (timeout s); [|discriminate]. intros [= <-].
    unfold settle. simpl. now rewrite Hs.
  - destruct (fetching s); [|discriminate].
    destruct (hasTimedOut s); [now intros [= <-]|].
    destruct (ok res); intros [= <-]; [|exact Hs].
    unfold settle. simpl. now rewrite Hs.
  - destruct (fetching s); [|discriminate]. now intros [= <-].
Qed.

Lemma run_settled es :
  forall s s' o,
    settled s = Some o -> run s es = Some s' -> settled s' = Some o.
Proof.
  induction es as [|e es IH]; simpl; intros s s' o Hs.
  - now intros [= <-].
  - destruct (step s e) as [s1|] eqn:E; [|discriminate].
    apply IH. now apply (step_settled s e s1).
Qed.

(** Every run of [loadJSON], by its first event. *)
Lemma run_loadJSON_cases es s :
  run loadJSON es = Some s ->
  match es with
  | [] => s = loadJSON
  | TimeoutFires :: _ => settled s = Some (Throw timed_out)
  | FetchFulfils res :: rest =>
      rest = []
      /\ timeout s = false /\ fetching s = false
      /\ settled s = if ok res then Some (json res) else None
  | FetchRejects e :: rest =>
      (rest = [] /\ settled s = None)
      \/ (rest = [TimeoutFires] /\ settled s = Some (Throw timed_out))
  end.
Proof.
  destruct es as [|[|res|e] rest]; simpl.
  - now intros [= <-].
  - now apply run_settled.
  - destruct (ok res) eqn:Hok; intros H;
      apply run_dead in H; try reflexivity;
      destruct H as [-> ->]; simpl; now rewrite ?Hok.
  - destruct rest as [|[|res|e'] rest]; simpl.
    + intros [= <-]. now left.
    + intros H. apply run_dead in H; try reflexivity.
      destruct H as [-> ->]. now right.
    + discriminate.
    + discriminate.
Qed.

(** X17.  The promise of [loadJSON] resolves only with the body of a
    response that arrived with an ok status before the timeout.  When the
    response arrives in time with another status, the timeout is cleared
    and the promise is never settled: nothing is left that could settle it.
    When the timeout fires first the promise is rejected with "Request timed
    out" and stays so, whatever arrives later.  A failure of the request
    itself shows only through the timeout. *)
Theorem loadJSON_settles :
  forall es s,
    run loadJSON es = Some s ->
    (forall v, settled s = Some (Normal v) ->
               exists res, es = [FetchFulfils res]
                           /\ ok res = true /\ json res = Normal v)
    /\ (forall res rest,
          es = FetchFulfils res :: rest -> ok res = false ->
          settled s = None /\ rest = [] /\ forall e, step s e = None)
    /\ (forall rest,
          es = TimeoutFires :: rest -> settled s = Some (Throw timed_out))
    /\ (forall e rest,
          es = FetchRejects e :: rest ->
          settled s = None \/ settled s = Some (Throw timed_out)).
Proof.
  intros es s Hrun. pose proof (run_loadJSON_cases es s Hrun) as H.
  split; [|split; [|split]].
  - intros v Hv. destruct es as [|[|res|e] rest].
    + subst s. discriminate Hv.
    + rewrite H in Hv. discriminate Hv.
    + destruct H as (-> & _ & _ & Hs). rewrite Hs in Hv.
      destruct (ok res) eqn:Hok; [|discriminate Hv].
      exists res. repeat split; congruence.
    + destruct H as [[_ Hs]|[_ Hs]]; rewrite Hs in Hv; discriminate Hv.
  - intros res rest -> Hok. destruct H as (-> & Ht & Hf & Hs).
    rewrite Hok in Hs. repeat split; [exact Hs|].
    intros e. now apply step_dead.
  - intros rest ->. exact H.
  - intros e rest ->. destruct H as [[_ Hs]|[_ Hs]]; [now left | now right].
Qed.

(** X17 on a response that arrives in time with status 404. *)
Lemma loadJSON_settles_witness :
  run loadJSON [FetchFulfils response404] = Some after404
  /\ settled after404 = None
  /\ step after404 TimeoutFires = None.
Proof.
  assert (Hrun : run loadJSON [FetchFulfils response404] = Some after404)
    by reflexivity.
  split; [exact Hrun|].
  destruct (proj1 (proj2 (loadJSON_settles _ _ Hrun)) response404 []
              eq_refl eq_refl) as (Hs & _ & Hd).
  split; [exact Hs | apply Hd].
Defined.

(** X18.  The promise of [changeServiceState] is settled only for a
    response that arrived in time with an ok status and a body: it stays
    pending for ever when the request times out, fails, or is answered with
    another status. *)
Theorem changeServiceState_pending :
  forall es s,
    run loadJSON es = Some s ->
    (changeServiceState (settled s) <> Pending ->
     exists res v, es = [FetchFulfils res]
                   /\ ok res = true /\ json res = Normal v)
    /\ (forall rest,
          es = TimeoutFires :: rest ->
          changeServiceState (settled s) = Pending)
    /\ (forall e rest,
          es = FetchRejects e :: rest ->
          changeServiceState (settled s) = Pending)
    /\ (forall res rest,
          es = FetchFulfils res :: rest -> ok res = false ->
          changeServiceState (settled s) = Pending)
    /\ (forall e, changeServiceState (settled s) = Rejected e -> e = failed).
Proof.
  intros es s Hrun. pose proof (run_loadJSON_cases es s Hrun) as H.
  split; [|split; [|split; [|split]]].
  - intros Hne. destruct es as [|[|res|e] rest].
    + subst s. now destruct Hne.
    + rewrite H in Hne. now destruct Hne.
    + destruct H as (-> & _ & _ & Hs). rewrite Hs in Hne.
      destruct (ok res) eqn:Hok; [|now destruct Hne].
      destruct (json res) as [v|e] eqn:Hj; [|now destruct Hne].
      now exists res, v.
    + destruct H as [[_ Hs]|[_ Hs]]; rewrite Hs in Hne; now destruct Hne.
  - intros rest ->. now rewrite H.
  - intros e rest ->. destruct H as [[_ ->]|[_ ->]]; reflexivity.
  - intros res rest -> Hok. destruct H as (_ & _ & _ & ->). now rewrite Hok.
  - intros e. destruct (settled s) as [[res|e']|]; simpl; try discriminate.
    destruct res; simpl; try (now intros [= <-]);
      repeat (case_if; simpl; try discriminate; try (now intros [= <-])).
Qed.

(** X18 on a request that times out before the response arrives. *)
Lemma changeServiceState_pending_witness :
  run loadJSON [TimeoutFires; FetchFulfils response200] = Some after_timeout
  /\ changeServiceState (settled after_timeout) = Pending.
Proof.
  assert (Hrun : run loadJSON [TimeoutFires; FetchFulfils response200]
                 = Some after_timeout) by reflexivity.
  split; [exact Hrun|].
  exact (proj1 (proj2 (changeServiceState_pending _ _ Hrun)) _ eq_refl).
Defined.

Lemma get_set o k v : get (set o k v) k = v.
Proof. unfold get. now rewrite lookup_set, String.eqb_refl. Qed.

Lemma lookup_set_other o k v k' :
  k' <> k -> lookup (set o k v) k' = lookup o k'.
Proof.
  intros H. rewrite lookup_set.
  destruct (String.eqb_spec k k'); [congruence | reflexivity].
Qed.

Lemma forEach_state_states l :
  forall before after,
    List.length after = List.length l ->
    map (fun r => get r "state")
      (forEach_state l (before ++ after) (List.length before))
    = after.
Proof.
  induction l as [|s l IH]; intros before after Hlen; simpl.
  - now destruct after.
  - destruct after as [|v after]; [discriminate|].
    rewrite get_set, nth_middle. f_equal.
    specialize (IH (before ++ [v]) after).
    rewrite <- app_assoc, length_app, Nat.add_1_r in IH.
    apply IH. simpl in Hlen. congruence.
Qed.

Lemma forEach_state_others l states :
  forall id,
    Forall2 (fun s r => forall k, k <> "state" -> lookup r k = lookup s k)
      l (forEach_state l states id).
Proof.
  induction l as [|s l IH]; intros id; simpl; constructor.
  - intros k Hk. now apply lookup_set_other.
  - apply IH.
Qed.

(** X19.  The services the earlier [getServices] resolves with are the
    services of the list that are not named ['dummy service'], in their
    order; each carries, as [state], the state resolved at its place, and
    keeps every other property; the database is asked to clear its
    services and, once it has, is given exactly the services resolved
    with. *)
Theorem getServices_attaches_states :
  forall services states cleared,
    List.length states = List.length (filter not_dummy services) ->
    forallb not_dummy (fst (getServices services states cleared)) = true
    /\ map (fun r => get r "state")
         (fst (getServices services states cleared))
       = states
    /\ Forall2 (fun s r => forall k, k <> "state" -> lookup r k = lookup s k)
         (filter not_dummy services)
         (fst (getServices services states cleared))
    /\ snd (getServices services states (Normal tt))
       = ClearServices
           :: map SetService (fst (getServices services states cleared))
    /\ forall e, snd (getServices services states (Throw e))
                 = [ClearServices].
Proof.
  intros services states cleared Hlen. unfold getServices. simpl.
  pose proof (forEach_state_others (filter not_dummy services) states 0)
    as Hoth.
  split; [|split; [|split; [|split; reflexivity]]].
  - assert (Hnd : forallb not_dummy (filter not_dummy services) = true).
    { apply forallb_forall. intros s Hs. now apply filter_In in Hs. }
    revert Hoth Hnd.
    generalize (forEach_state (filter not_dummy services) states 0) as rs.
    generalize (filter not_dummy services) as ss.
    induction 1 as [|s r ss rs Hsr _ IH]; simpl; [reflexivity|].
    intros H. apply andb_true_iff in H. destruct H as [Hs Hss].
    rewrite (IH Hss), andb_true_r.
    unfold not_dummy, get in *. rewrite (Hsr "name"); [exact Hs|].
    discriminate.
  - apply (forEach_state_states _ [] states Hlen).
  - exact Hoth.
Qed.

(** X19 on a list with one dummy service between two real ones. *)
Lemma getServices_attaches_states_witness :
  List.length [VObject 1 [("on", VBool true)]; VObject 2 []]
  = List.length (filter not_dummy listed)
  /\ map (fun r => get r "state")
       (fst (getServices listed
               [VObject 1 [("on", VBool true)]; VObject 2 []] (Normal tt)))
     = [VObject 1 [("on", VBool true)]; VObject 2 []]
  /\ map (fun r => get r "id")
       (fst (getServices listed
               [VObject 1 [("on", VBool true)]; VObject 2 []] (Normal tt)))
     = [VNumber 1; VNumber 3].
Proof.
  split; [reflexivity|]. split; [|reflexivity].
  exact (proj1 (proj2 (getServices_attaches_states listed
                         [VObject 1 [("on", VBool true)]; VObject 2 []]
                         (Normal tt) eq_refl))).
Defined.

End LegacyFacts.

(** ** The view of one service *)
Section ViewFacts.
Import View.

Lemma onServiceStateChanged_id c service' :
  id (onServiceStateChanged c service') = id c.
Proof. unfold onServiceStateChanged. now case_if. Qed.

(** X20.  After any run of [service-state-change] events the view shows
    the record of the last event whose id is strictly equal to the id the
    view was made for, with the tags of that record; events for other ids
    leave it as it is, and a view whose id is [NaN] never changes. *)
Theorem view_follows_last_match :
  forall payloads c,
    fold_left onServiceStateChanged payloads c
    = match last_such (fun p => strict_eq (get p "id") (id c)) payloads with
      | Some p => {| id := id c; service := p; data := get p "tags" |}
      | None => c
      end.
Proof.
  induction payloads as [|p payloads IH]; intros c; simpl; [reflexivity|].
  rewrite IH, onServiceStateChanged_id.
  destruct (last_such _ payloads); [reflexivity|].
  unfold onServiceStateChanged.
  now destruct (strict_eq (get p "id") (id c)).
Qed.

Lemma strict_eq_sym a b : strict_eq a b = strict_eq b a.
Proof.
  destruct a, b; simpl; try reflexivity.
  - now destruct b, b0.
  - apply Z.eqb_sym.
  - apply String.eqb_sym.
  - apply Nat.eqb_sym.
Qed.

Lemma deliver_new_services c news :
  Forall (fun f => strict_eq (get f "id") (id c) = false) news ->
  fold_left deliver (map ServiceStateChange news) c = c.
Proof.
  induction 1 as [|f news Hf _ IH]; simpl; [reflexivity|].
  unfold onServiceStateChanged. now rewrite Hf.
Qed.

(** X21.  With the services as [fetchServices] projects them, polling
    never refreshes the view of a service that is in the cache: whatever the
    session, the rows of the database and the response of the box, the
    events of a cycle leave such a view exactly as it was. *)
Theorem polling_never_refreshes_cached_view :
  forall session rows response c cached,
    In cached (getServices rows) ->
    id c = get cached "id" ->
    fold_left deliver
      (dispatched (fst (refreshServicesByPolling session rows response))) c
    = c.
Proof.
  intros session rows response c cached Hin Hid.
  unfold refreshServicesByPolling.
  destruct (isLoggedIn session); simpl; [|reflexivity].
  unfold reconcile.
  rewrite (reduce_keyless _ _ _ (fetchServices_keyless response)). simpl.
  assert (Hnew : fold_left deliver
                   (map ServiceStateChange
                      (filter (is_new (getServices rows))
                         (fetchServices response))) c = c).
  { apply deliver_new_services. apply Forall_forall.
    intros f Hf. apply filter_In in Hf. destruct Hf as [_ Hf].
    unfold is_new in Hf.
    destruct (find (same_id f) (getServices rows)) eqn:E; [discriminate|].
    pose proof (find_none _ _ E cached Hin) as Hc.
    unfold same_id in Hc. now rewrite Hid, strict_eq_sym. }
  case_if; simpl; [|exact Hnew].
  now rewrite fold_left_app, Hnew.
Qed.

(** X21 for the view of the cached service 1 when the box reports the
    services 1 and 2. *)
Lemma polling_never_refreshes_cached_view_witness :
  In cached1 (getServices [ {| Reconciler.data := cached1 |} ])
  /\ fold_left deliver
       (dispatched
          (fst (refreshServicesByPolling (VString "t")
                  [ {| Reconciler.data := cached1 |} ] [fetched1; fetched2])))
       {| id := VNumber 1; service := cached1; data := VUndefined |}
     = {| id := VNumber 1; service := cached1; data := VUndefined |}.
Proof.
  assert (Hin : In cached1 (getServices [ {| Reconciler.data := cached1 |} ]))
    by now left.
  split; [exact Hin|].
  exact (polling_never_refreshes_cached_view (VString "t")
           [ {| Reconciler.data := cached1 |} ] [fetched1; fetched2]
           {| id := VNumber 1; service := cached1; data := VUndefined |}
           cached1 Hin eq_refl).
Defined.

End ViewFacts.

(** ** Starting up *)
Section StartupFacts.
Import Requests Startup.

Lemma scan_resolved st parts :
  forall before st',
    Session.scan st before parts = (st', Normal tt) -> st' = st.
Proof.
  induction parts as [|part parts IH]; intros before st'; cbn [Session.scan].
  - now intros [= <-].
  - destruct (Session.is_session_part part); [discriminate|]. apply IH.
Qed.

Lemma initUserSession_resolved st st' u :
  Session._initUserSession st = (st', Normal u) -> st' = st.
Proof.
  destruct u. unfold Session._initUserSession.
  destruct (Session.isLoggedIn st); [now intros [= <-]|].
  apply scan_resolved.
Qed.

(** X22.  [init] goes step by step.  When the scan of the query string
    throws to redirect, [init] itself throws and nothing else has happened:
    no discovery, no initialisation of the network layer or the database, no
    polling.  The database is initialised only if there is no redirection,
    and then the page is as it was.  Polling is toggled, to the setting, and
    the settings are listened to only when the promise resolves, that is
    when discovery, the network layer and the database have all succeeded;
    when the promise is rejected the scheduler is as before. *)
Theorem init_step_by_step :
  forall env a,
    (forall e,
        snd (init env a) = Thrown e ->
        e = Session.redirecting
        /\ watching (fst (init env a)) = watching a
        /\ net_ready (fst (init env a)) = net_ready a
        /\ db_ready (fst (init env a)) = db_ready a
        /\ listening (fst (init env a)) = listening a
        /\ scheduler (fst (init env a)) = scheduler a
        /\ recipes (fst (init env a)) = recipes a)
    /\ (db_ready a = false -> db_ready (fst (init env a)) = true ->
        snd (init env a) = Returned (Resolved tt)
        /\ page (fst (init env a)) = page a)
    /\ (snd (init env a) = Returned (Resolved tt) ->
        scheduler (fst (init env a))
        = Scheduler.togglePolling (pollingEnabled env) (scheduler a)
        /\ listening (fst (init env a)) = true
        /\ net_ready (fst (init env a)) = true
        /\ db_ready (fst (init env a)) = true
        /\ recipes (fst (init env a)) = true
        /\ watching (fst (init env a))
           = watching a || negb (skipDiscovery env))
    /\ (forall e,
          snd (init env a) = Returned (Rejected e) ->
          scheduler (fst (init env a)) = scheduler a
          /\ listening (fst (init env a)) = listening a
          /\ db_ready (fst (init env a)) = db_ready a
          /\ recipes (fst (init env a)) = recipes a).
Proof.
  intros env a. unfold init.
  destruct (Session._initUserSession (page a)) as [page' [u|e0]] eqn:Hs.
  - apply initUserSession_resolved in Hs. subst page'.
    destruct (if skipDiscovery env then Normal tt else watch env)
      as [u1|e1]; simpl.
    + destruct (net_init env) as [u2|e2]; simpl.
      * destruct (db_init env) as [u3|e3]; simpl;
          repeat split; try discriminate; congruence.
      * repeat split; try discriminate; congruence.
    + repeat split; try discriminate; congruence.
  - assert (He : e0 = Session.redirecting).
    { unfold Session._initUserSession in Hs.
      destruct (Session.isLoggedIn (page a)); [discriminate|].
      now destruct (scan_thrown _ _ _ _ _ Hs) as (-> & _). }
    simpl. repeat split; try discriminate; congruence.
Qed.

(** X22 on a page loaded without query string, with polling enabled. *)
Lemma init_step_by_step_witness :
  snd (init env_ok (fresh page_plain)) = Returned (Resolved tt)
  /\ Scheduler.timers (scheduler (fst (init env_ok (fresh page_plain))))
     = [1]
  /\ db_ready (fst (init env_ok (fresh page_plain))) = true.
Proof.
  assert (H : snd (init env_ok (fresh page_plain)) = Returned (Resolved tt))
    by reflexivity.
  split; [exact H|].
  destruct (proj1 (proj2 (proj2 (init_step_by_step env_ok
                                   (fresh page_plain)))) H)
    as (Hsch & _ & _ & Hdb & _).
  split; [now rewrite Hsch | exact Hdb].
Defined.

End StartupFacts.
